(** * ARnft: the multi-marker session orchestrator (src/ARnft.ts)

    A shallow embedding of the [ARnft] class.  The class is stateful and
    event driven, so the embedding threads an explicit [World] through
    every call:

    - JavaScript objects live in a store ([heap]); an orchestrator handle is
      an address, so the handle returned by [init] and the [this] captured
      by the config-ready listener alias the same object;
    - the static field [ARnft.entities] is a field of the world;
    - [number] is an IEEE binary64 float, as in JavaScript;
    - a call on a collaborator (Container, Stats, CameraViewRenderer,
      NFTWorker, console, the event target, requestAnimationFrame) is
      recorded, in program order, in the world's [trace];
    - an [await] suspends the listener: the closure is parked in the world
      until the host settles the awaited promise;
    - a JavaScript exception is a [Throw] completion. *)

From Stdlib Require Import PrimFloat.
From stdpp Require Import base list strings pretty.

Local Open Scope string_scope.
Local Open Scope list_scope.

(** ** Data model *)

(** A JavaScript [number]. *)
Abbreviation number := float.

(** [interface Entity { name: string; markerUrl: string }] *)
Module Entity.
Record t := mk { name : string; markerUrl : string }.
End Entity.

(** Modelled from the spec: [ConfigData] is declared in ./config/ConfigData,
    outside src/.  Section 6 of the specification lists the fields the
    orchestrator reads: [videoSettings], [cameraPara] and
    [stats.createHtml]; the first two are opaque payloads here. *)
Module ConfigData.
Record Stats := mkStats { createHtml : bool }.
Record t := mk { videoSettings : string; cameraPara : string; stats : Stats }.
End ConfigData.

(** Modelled from the spec: the Tracking Worker Session ([NFTWorker], in
    ./NFTWorker, outside src/).  Section 4.2: [construct(markerLocator,
    width, height, ownerIdentity, name)] binds identity and performs no I/O.
    [name] is an option because [names[index]] is [undefined] past the end
    of [names]. *)
Module NFTWorker.
Record t := mk {
  markerLocator : string;
  width : number;
  height : number;
  ownerIdentity : string;
  name : option string
}.
End NFTWorker.

(** Modelled from the spec: the Camera View ([CameraViewRenderer], outside
    src/), built over the element [document.getElementById("video")], which
    is [null] ([None]) when the page has no such element. *)
Module CameraViewRenderer.
Record t := mk { video : option string }.
End CameraViewRenderer.

Inductive EventTarget := window | global.

(** The two stats.js panels of the listener, [statsMain] and [statsWorker]. *)
Inductive Panel := statsMain | statsWorker.

(** The two arrow functions handed to [NFTWorker.initialize]:
    [() => { if (stats) { statsMain.update(); } }] and its twin. *)
Inductive Hook := hook (stats : bool) (p : Panel).

(** Values that are thrown or that reject a promise. *)
Inductive JsValue :=
  | JsFalse
  | TypeError (msg : string)
  | HostError (msg : string).

(** The class instance, field by field.  Fields the constructor leaves
    unassigned are [None] ([undefined]). *)
Record ARnft := mkARnft {
  cameraView : option CameraViewRenderer.t;
  appData : option ConfigData.t;
  width : number;
  height : number;
  configUrl : string;
  listeners : option unit;
  markerUrl : option string;
  camData : option string;
  controllers : option (list NFTWorker.t);
  target : EventTarget;
  uuid : string;
  version : string;
  _fps : number;
  _lastTime : number
}.

Definition set_appData (v : option ConfigData.t) (o : ARnft) : ARnft :=
  mkARnft (cameraView o) v (width o) (height o) (configUrl o) (listeners o)
    (markerUrl o) (camData o) (controllers o) (target o) (uuid o) (version o)
    (_fps o) (_lastTime o).

Definition set_cameraView (v : option CameraViewRenderer.t) (o : ARnft) : ARnft :=
  mkARnft v (appData o) (width o) (height o) (configUrl o) (listeners o)
    (markerUrl o) (camData o) (controllers o) (target o) (uuid o) (version o)
    (_fps o) (_lastTime o).

Definition set_controllers (v : option (list NFTWorker.t)) (o : ARnft) : ARnft :=
  mkARnft (cameraView o) (appData o) (width o) (height o) (configUrl o)
    (listeners o) (markerUrl o) (camData o) v (target o) (uuid o) (version o)
    (_fps o) (_lastTime o).

Definition set__fps (v : number) (o : ARnft) : ARnft :=
  mkARnft (cameraView o) (appData o) (width o) (height o) (configUrl o)
    (listeners o) (markerUrl o) (camData o) (controllers o) (target o) (uuid o)
    (version o) v (_lastTime o).

(** ** Closures *)

(** The arrow function registered for "getConfig" in [_initialize]; it
    captures [this], [markerUrls], [names] and [stats]. *)
Record Listener := mkListener {
  l_this : nat;
  l_markerUrls : list string;
  l_names : list string;
  l_stats : bool
}.

(** The arrow function [update] of one [forEach] iteration; it captures
    [this] and [index]. *)
Record Update := mkUpdate { u_this : nat; u_index : nat }.

(** ** Calls on collaborators *)

Inductive ContainerCall :=
  | createContainer (cfg : ConfigData.t)
  | createLoading (cfg : ConfigData.t)
  | createStats (create : bool) (cfg : ConfigData.t).

(** Modelled from the spec: the collaborators are outside src/ and are
    known by their interfaces only (specification, sections 4.2, 4.3 and 6).
    A call on one of them is recorded with its arguments and returns
    normally.  Two calls have more to them: [cameraView.initialize] returns
    a promise, which the host settles later, either way; [getConfig] is
    fire and forget, the "getConfig" event comes later, from the host. *)
Inductive Effect :=
  | console_log (args : list string)
  | console_error (e : JsValue)
  | dispatchEvent (type : string)
  | getConfig (url : string)
  | addEventListener (type : string) (f : Listener)
  | Container (c : ContainerCall)
  | Stats_new (p : Panel)
  | Stats_showPanel (p : Panel) (n : nat)
  | appendChild (slot : string) (p : Panel)
  | CameraViewRenderer_new (cam : CameraViewRenderer.t)
  | CameraViewRenderer_initialize (cam : CameraViewRenderer.t) (settings : string)
  | CameraViewRenderer_getImage (cam : CameraViewRenderer.t)
  | CameraViewRenderer_destroy (cam : CameraViewRenderer.t)
  | NFTWorker_new (w : NFTWorker.t)
  | NFTWorker_initialize (w : NFTWorker.t) (cameraPara : string) (frame : nat)
      (onMainTick onWorkerTick : Hook)
  | NFTWorker_process (w : NFTWorker.t) (frame : nat)
  | NFTWorker_stopNFT
  | requestAnimationFrame (f : Update)
  | unhandledrejection (e : JsValue)
  | uncaught (e : JsValue).

(** ** The world *)

Record World := mkWorld {
  heap : list ARnft;                      (* the object store *)
  ARnft_entities : option (list Entity.t); (* private static entities *)
  getConfigListeners : list Listener;     (* listeners of the event target *)
  awaiting : list Listener;               (* listeners parked at their await *)
  animationFrames : list Update;          (* callbacks for the next frame *)
  document : list string;                 (* ids of the page's elements *)
  videoFrame : nat;                       (* the frame the video shows now *)
  trace : list Effect                     (* collaborator calls so far *)
}.

Definition set_heap (v : list ARnft) (W : World) : World :=
  mkWorld v (ARnft_entities W) (getConfigListeners W) (awaiting W)
    (animationFrames W) (document W) (videoFrame W) (trace W).

Definition set_ARnft_entities (v : option (list Entity.t)) (W : World) : World :=
  mkWorld (heap W) v (getConfigListeners W) (awaiting W)
    (animationFrames W) (document W) (videoFrame W) (trace W).

Definition set_getConfigListeners (v : list Listener) (W : World) : World :=
  mkWorld (heap W) (ARnft_entities W) v (awaiting W)
    (animationFrames W) (document W) (videoFrame W) (trace W).

Definition set_awaiting (v : list Listener) (W : World) : World :=
  mkWorld (heap W) (ARnft_entities W) (getConfigListeners W) v
    (animationFrames W) (document W) (videoFrame W) (trace W).

Definition set_animationFrames (v : list Update) (W : World) : World :=
  mkWorld (heap W) (ARnft_entities W) (getConfigListeners W) (awaiting W)
    v (document W) (videoFrame W) (trace W).

Definition set_document (v : list string) (W : World) : World :=
  mkWorld (heap W) (ARnft_entities W) (getConfigListeners W) (awaiting W)
    (animationFrames W) v (videoFrame W) (trace W).

Definition set_videoFrame (v : nat) (W : World) : World :=
  mkWorld (heap W) (ARnft_entities W) (getConfigListeners W) (awaiting W)
    (animationFrames W) (document W) v (trace W).

Definition set_trace (v : list Effect) (W : World) : World :=
  mkWorld (heap W) (ARnft_entities W) (getConfigListeners W) (awaiting W)
    (animationFrames W) (document W) (videoFrame W) v.

(** A freshly loaded page whose elements are [doc]. *)
Definition page (doc : list string) : World :=
  mkWorld [] None [] [] [] doc 0 [].

(** ** Completions and the [Js] monad *)

Inductive Completion (A : Type) :=
  | Normal (a : A)
  | Throw (e : JsValue).
Arguments Normal {A} a.
Arguments Throw {A} e.

Definition Js (A : Type) : Type := World -> Completion A * World.

Definition ret {A} (a : A) : Js A := fun W => (Normal a, W).

Definition throw {A} (e : JsValue) : Js A := fun W => (Throw e, W).

Definition bind {A B} (m : Js A) (k : A -> Js B) : Js B :=
  fun W =>
    match m W with
    | (Normal a, W') => k a W'
    | (Throw e, W') => (Throw e, W')
    end.

Declare Scope js_scope.
Delimit Scope js_scope with js.
Notation "x <- m ;; k" := (bind m (fun x => k))
  (at level 100, m at next level, right associativity) : js_scope.
Notation "m ;; k" := (bind m (fun _ => k))
  (at level 100, right associativity) : js_scope.
Local Open Scope js_scope.

Definition emit (e : Effect) : Js unit :=
  fun W => (Normal tt, set_trace (trace W ++ [e]) W).

(** The final world of a computation, and whether it completed normally. *)
Definition exec {A} (m : Js A) (W : World) : World := (m W).2.
Definition completion {A} (m : Js A) (W : World) : Completion A := (m W).1.

(** ** What the host supplies *)

(** Parts of the program that live outside src/ and that the class only
    calls: the identity generator [uuidv4] (the [n]-th orchestrator built on
    the page draws [uuidv4 n]), the [version] string of package.json, and
    what a [Container] call does to the page's elements. *)
Record Host := mkHost {
  uuidv4 : nat -> string;
  packageJson_version : string;
  Container_document : ContainerCall -> list string -> list string
}.

Section Orchestrator.

Variable host : Host.

(** *** Access to [this] *)

Definition undefined_read (what : string) : JsValue :=
  TypeError ("Cannot read properties of undefined: " ++ what)%string.

Definition this_ (this : nat) : Js ARnft :=
  fun W =>
    match heap W !! this with
    | Some o => (Normal o, W)
    | None => (Throw (undefined_read "this"), W)
    end.

Definition assign (this : nat) (f : ARnft -> ARnft) : Js unit :=
  fun W =>
    match heap W !! this with
    | Some o => (Normal tt, set_heap (<[this := f o]> (heap W)) W)
    | None => (Throw (undefined_read "this"), W)
    end.

(** [this.cameraView.m(..)]: a [TypeError] while [cameraView] is undefined. *)
Definition this_cameraView (this : nat) : Js CameraViewRenderer.t :=
  o <- this_ this ;;
  match cameraView o with
  | Some cam => ret cam
  | None => throw (undefined_read "cameraView")
  end.

Definition this_appData (this : nat) : Js ConfigData.t :=
  o <- this_ this ;;
  match appData o with
  | Some cfg => ret cfg
  | None => throw (undefined_read "appData")
  end.

Definition this_controllers (this : nat) : Js (list NFTWorker.t) :=
  o <- this_ this ;;
  match controllers o with
  | Some cs => ret cs
  | None => throw (undefined_read "controllers")
  end.

(** [this.controllers[index].m(..)]: the element is [undefined] past the
    end of the array, and calling a method on it is a [TypeError]. *)
Definition this_controllers_at (this index : nat) : Js NFTWorker.t :=
  cs <- this_controllers this ;;
  match cs !! index with
  | Some w => ret w
  | None => throw (undefined_read "controllers[index]")
  end.

(** *** Instance methods *)

(** [public setFPS(value: number): void { this._fps = 1000 / value; }] *)
Definition setFPS (this : nat) (value : number) : Js unit :=
  assign this (set__fps (1000 / value)%float).

(** [public static getEntities() { return this.entities; }] *)
Definition getEntities : Js (option (list Entity.t)) :=
  fun W => (Normal (ARnft_entities W), W).

(** [public getEventTarget(): EventTarget { return this.target; }] *)
Definition getEventTarget (this : nat) : Js EventTarget :=
  o <- this_ this ;; ret (target o).

(** [public disposeNFT() { NFTWorker.stopNFT(); }] *)
Definition disposeNFT (this : nat) : Js unit :=
  emit NFTWorker_stopNFT.

(** [public disposeVideoStream() { this.cameraView.destroy(); }] *)
Definition disposeVideoStream (this : nat) : Js unit :=
  cam <- this_cameraView this ;;
  emit (CameraViewRenderer_destroy cam).

(** [public dispose() { this.disposeVideoStream(); this.disposeNFT(); }] *)
Definition dispose (this : nat) : Js unit :=
  disposeVideoStream this ;;
  disposeNFT this.

(** *** The constructor *)

(** [new ARnft(width, height, configUrl)]: the field initialisers
    ([_fps = 15], [_lastTime = 0]) run first, then the body. *)
Definition new_ARnft (width height : number) (configUrl : string) : Js nat :=
  fun W =>
    let this := length (heap W) in
    let o := mkARnft None None width height configUrl None None None None
               window (uuidv4 host this) (packageJson_version host)
               15%float 0%float in
    (o' <- this_ this ;;
     setFPS this (_fps o') ;;
     o' <- this_ this ;;
     emit (console_log ["ARnft "; version o']) ;;
     ret this) (set_heap (heap W ++ [o]) W).

(** *** The config-ready listener *)

(** [document.getElementById(id)]: [null] when the page has no such element. *)
Definition getElementById (id : string) : Js (option string) :=
  fun W => (Normal (if decide (id ∈ document W) then Some id else None), W).

(** [document.getElementById(slot).appendChild(panel.dom)] *)
Definition getElementById_appendChild (slot : string) (p : Panel) : Js unit :=
  el <- getElementById slot ;;
  match el with
  | Some el => emit (appendChild el p)
  | None => throw (TypeError "Cannot read properties of null: appendChild")
  end.

(** A call on [Container]: recorded, and the page changes as the host says. *)
Definition Container_call (c : ContainerCall) : Js unit :=
  emit (Container c) ;;
  fun W => (Normal tt, set_document (Container_document host c (document W)) W).

(** [this.cameraView.getImage()] *)
Definition getImage (this : nat) : Js nat :=
  cam <- this_cameraView this ;;
  emit (CameraViewRenderer_getImage cam) ;;
  fun W => (Normal (videoFrame W), W).

(** [let update = () => { this.controllers[index].process(
    this.cameraView.getImage()); requestAnimationFrame(update); }] *)
Definition update (this index : nat) : Js unit :=
  w <- this_controllers_at this index ;;
  frame <- getImage this ;;
  emit (NFTWorker_process w frame) ;;
  emit (requestAnimationFrame (mkUpdate this index)) ;;
  fun W => (Normal tt,
            set_animationFrames (animationFrames W ++ [mkUpdate this index]) W).

(** [Array.prototype.forEach]: the callback gets the element and its index. *)
Fixpoint forEach_from {A} (callback : A -> nat -> Js unit) (xs : list A)
    (index : nat) : Js unit :=
  match xs with
  | [] => ret tt
  | x :: xs' => callback x index ;; forEach_from callback xs' (S index)
  end.

Definition forEach {A} (xs : list A) (callback : A -> nat -> Js unit) : Js unit :=
  forEach_from callback xs 0.

(** The body of [markerUrls.forEach((markerUrl, index) => { .. })]. *)
Definition forEach_callback (this : nat) (names : list string) (stats : bool)
    (markerUrl : string) (index : nat) : Js unit :=
  cs <- this_controllers this ;;
  o <- this_ this ;;
  let w := NFTWorker.mk markerUrl (width o) (height o) (uuid o) (names !! index) in
  emit (NFTWorker_new w) ;;
  assign this (set_controllers (Some (cs ++ [w]))) ;;
  w <- this_controllers_at this index ;;
  cfg <- this_appData this ;;
  frame <- getImage this ;;
  emit (NFTWorker_initialize w (ConfigData.cameraPara cfg) frame
          (hook stats statsMain) (hook stats statsWorker)) ;;
  w <- this_controllers_at this index ;;
  frame <- getImage this ;;
  emit (NFTWorker_process w frame) ;;
  update this index.

(** The listener from its first statement to the [await]: everything up to
    and including the call [this.cameraView.initialize(..)]. *)
Definition listener_head (f : Listener) (config : ConfigData.t) : Js unit :=
  let this := l_this f in
  assign this (set_appData (Some config)) ;;
  cfg <- this_appData this ;; Container_call (createContainer cfg) ;;
  cfg <- this_appData this ;; Container_call (createLoading cfg) ;;
  cfg <- this_appData this ;;
  Container_call (createStats (ConfigData.createHtml (ConfigData.stats cfg)) cfg) ;;
  (if l_stats f then
     emit (Stats_new statsMain) ;;
     emit (Stats_showPanel statsMain 0) ;;
     getElementById_appendChild "stats1" statsMain ;;
     emit (Stats_new statsWorker) ;;
     emit (Stats_showPanel statsWorker 0) ;;
     getElementById_appendChild "stats2" statsWorker
   else ret tt) ;;
  assign this (set_controllers (Some [])) ;;
  video <- getElementById "video" ;;
  emit (CameraViewRenderer_new (CameraViewRenderer.mk video)) ;;
  assign this (set_cameraView (Some (CameraViewRenderer.mk video))) ;;
  cam <- this_cameraView this ;;
  cfg <- this_appData this ;;
  emit (CameraViewRenderer_initialize cam (ConfigData.videoSettings cfg)).

(** The listener from the [await] on.  [settled] is how the promise of
    [cameraView.initialize] settled: [None] fulfilled, [Some error]
    rejected; the [catch] handler logs the error and rejects with [false],
    which the [await] rethrows. *)
Definition listener_tail (f : Listener) (settled : option JsValue) : Js unit :=
  match settled with
  | Some error => emit (console_error error) ;; throw JsFalse
  | None =>
      forEach (l_markerUrls f)
        (forEach_callback (l_this f) (l_names f) (l_stats f))
  end.

(** The promise of an async listener is dropped by the event target: a
    rejection of it is reported and goes nowhere else. *)
Definition dropped (m : Js unit) : World -> World :=
  fun W =>
    match m W with
    | (Normal _, W') => W'
    | (Throw e, W') => exec (emit (unhandledrejection e)) W'
    end.

(** One listener runs on a "getConfig" event: to its [await], where it is
    parked unless it threw before.  The event target drops the promise of
    the async listener; a rejection of it is handed back, to be reported
    when the dispatch is over. *)
Definition listener_run (config : ConfigData.t) (W : World) (f : Listener)
    : World * list JsValue :=
  match listener_head f config W with
  | (Normal _, W') => (set_awaiting (awaiting W' ++ [f]) W', [])
  | (Throw e, W') => (W', [e])
  end.

(** The dispatch of a "getConfig" event calls the listeners one after the
    other, in registration order. *)
Fixpoint dispatch_getConfig (config : ConfigData.t) (fs : list Listener)
    (W : World) : World * list JsValue :=
  match fs with
  | [] => (W, [])
  | f :: fs' =>
      let r := listener_run config W f in
      let r' := dispatch_getConfig config fs' r.1 in
      (r'.1, r.2 ++ r'.2)
  end.

(** The rejections that nothing handles are reported in the order in which
    the promises were rejected. *)
Definition report_rejections (rejected : list JsValue) (W : World) : World :=
  foldl (fun W e => exec (emit (unhandledrejection e)) W) W rejected.

(** A dispatch that reaches this listener alone. *)
Definition listener_call (config : ConfigData.t) (W : World) (f : Listener) : World :=
  match listener_head f config W with
  | (Normal _, W') => set_awaiting (awaiting W' ++ [f]) W'
  | (Throw e, W') => exec (emit (unhandledrejection e)) W'
  end.

(** *** Initialisation *)

Definition start_banner : list string :=
  [ "ARnft init() %cstart...";
    "color: yellow; background-color: blue; border-radius: 4px; padding: 2px" ].

(** [private async _initialize(markerUrls, names, stats)].  The event
    target's listeners for "initARnft" belong to the host page and are not
    modelled; [getConfig] only starts the load. *)
Definition _initialize (this : nat) (markerUrls names : list string)
    (stats : bool) : Js nat :=
  emit (dispatchEvent "initARnft") ;;
  emit (console_log start_banner) ;;
  o <- this_ this ;;
  emit (getConfig (configUrl o)) ;;
  emit (addEventListener "getConfig" (mkListener this markerUrls names stats)) ;;
  (fun W => (Normal tt,
     set_getConfigListeners
       (getConfigListeners W ++ [mkListener this markerUrls names stats]) W)) ;;
  ret this.

(** How a promise of the orchestrator handle has settled. *)
Inductive Promise :=
  | Resolved (handle : nat)
  | Rejected (reason : JsValue).

(** [.catch((error) => { console.error(error); return Promise.reject(false); })] *)
Definition catch_reject_false (m : Js nat) : World -> Promise * World :=
  fun W =>
    match m W with
    | (Normal handle, W') => (Resolved handle, W')
    | (Throw error, W') => (Rejected JsFalse, exec (emit (console_error error)) W')
    end.

(** [static async init(width, height, markerUrls, names, configUrl, stats)] *)
Definition init (width height : number) (markerUrls names : list string)
    (configUrl : string) (stats : bool) : World -> Promise * World :=
  fun W =>
    match new_ARnft width height configUrl W with
    | (Normal _arnft, W') =>
        catch_reject_false (_initialize _arnft markerUrls names stats) W'
    | (Throw e, W') => (Rejected e, W')
    end.

(** [static async initWithEntities(width, height, entities, configUrl, stats)] *)
Definition initWithEntities (width height : number) (entities : list Entity.t)
    (configUrl : string) (stats : bool) : World -> Promise * World :=
  fun W =>
    match new_ARnft width height configUrl W with
    | (Normal _arnft, W') =>
        let W' := set_ARnft_entities (Some entities) W' in
        match ARnft_entities W' with
        | Some this_entities =>
            let markerUrls := map Entity.markerUrl this_entities in
            match ARnft_entities W' with
            | Some this_entities =>
                let names := map Entity.name this_entities in
                catch_reject_false (_initialize _arnft markerUrls names stats) W'
            | None => (Rejected (undefined_read "entities"), W')
            end
        | None => (Rejected (undefined_read "entities"), W')
        end
    | (Throw e, W') => (Rejected e, W')
    end.

End Orchestrator.

(** ** The page as a state machine *)

(** What can happen on the page: the host calls the public interface, the
    config loader dispatches "getConfig", the promise of a parked
    listener's [cameraView.initialize] settles, the browser runs an
    animation frame, the video moves on to another frame. *)
Inductive Command :=
  | call_init (width height : number) (markerUrls names : list string)
      (configUrl : string) (stats : bool)
  | call_initWithEntities (width height : number) (entities : list Entity.t)
      (configUrl : string) (stats : bool)
  | call_setFPS (this : nat) (value : number)
  | call_getEntities
  | call_getEventTarget (this : nat)
  | call_dispose (this : nat)
  | call_disposeNFT (this : nat)
  | call_disposeVideoStream (this : nat)
  | fire_getConfig (config : ConfigData.t)
  | settle_camera (k : nat) (settled : option JsValue)
  | animation_frame
  | video_plays (frame : nat).

Section Page.

Variable host : Host.

(** An exception in an animation-frame callback is reported by the browser
    and ends that callback. *)
Definition frame_callback (W : World) (f : Update) : World :=
  match update (u_this f) (u_index f) W with
  | (Normal _, W') => W'
  | (Throw e, W') => exec (emit (uncaught e)) W'
  end.

Definition step (c : Command) (W : World) : World :=
  match c with
  | call_init width height markerUrls names configUrl stats =>
      (init host width height markerUrls names configUrl stats W).2
  | call_initWithEntities width height entities configUrl stats =>
      (initWithEntities host width height entities configUrl stats W).2
  | call_setFPS this value => exec (setFPS this value) W
  | call_getEntities => exec getEntities W
  | call_getEventTarget this => exec (getEventTarget this) W
  | call_dispose this => exec (dispose this) W
  | call_disposeNFT this => exec (disposeNFT this) W
  | call_disposeVideoStream this => exec (disposeVideoStream this) W
  | fire_getConfig config =>
      let r := dispatch_getConfig host config (getConfigListeners W) W in
      report_rejections r.2 r.1
  | settle_camera k settled =>
      match awaiting W !! k with
      | Some f =>
          dropped (listener_tail f settled) (set_awaiting (delete k (awaiting W)) W)
      | None => W
      end
  | animation_frame =>
      foldl frame_callback (set_animationFrames [] W) (animationFrames W)
  | video_plays frame => set_videoFrame frame W
  end.

Definition run (cs : list Command) (W : World) : World :=
  foldl (fun W c => step c W) W cs.

End Page.

(** ** Reading a world *)

(** The sessions constructed in a trace, in construction order. *)
Definition constructed (t : list Effect) : list NFTWorker.t :=
  omap (fun e => match e with NFTWorker_new w => Some w | _ => None end) t.

Definition is_stopNFT (e : Effect) : bool :=
  match e with NFTWorker_stopNFT => true | _ => false end.

Definition is_destroy (e : Effect) : bool :=
  match e with CameraViewRenderer_destroy _ => true | _ => false end.

(** The calls that only the config-ready listener makes: containers,
    overlays, camera, sessions, loop. *)
Definition is_config_ready_step (e : Effect) : bool :=
  match e with
  | Container _ | Stats_new _ | Stats_showPanel _ _ | appendChild _ _
  | CameraViewRenderer_new _ | CameraViewRenderer_initialize _ _
  | CameraViewRenderer_getImage _ | NFTWorker_new _
  | NFTWorker_initialize _ _ _ _ _ | NFTWorker_process _ _
  | requestAnimationFrame _ => true
  | _ => false
  end.

(** How many calls of a kind a trace holds. *)
Fixpoint calls (kind : Effect -> bool) (t : list Effect) : nat :=
  match t with
  | [] => 0
  | e :: t' => (if kind e then 1 else 0) + calls kind t'
  end.

(** The instance the constructor leaves in the store: the default 15 frames
    per second went through [setFPS]. *)
Definition constructed_ARnft (host : Host) (this : nat) (width height : number)
    (configUrl : string) : ARnft :=
  mkARnft None None width height configUrl None None None None window
    (uuidv4 host this) (packageJson_version host) (1000 / 15)%float 0%float.

(** The calls of [init] and [initWithEntities], constructor included. *)
Definition init_calls (host : Host) (configUrl : string) (f : Listener)
    : list Effect :=
  [ console_log ["ARnft "; packageJson_version host];
    dispatchEvent "initARnft";
    console_log start_banner;
    getConfig configUrl;
    addEventListener "getConfig" f ].

(** The world [init] leaves behind. *)
Definition after_init (host : Host) (width height : number)
    (configUrl : string) (f : Listener) (W : World) : World :=
  set_getConfigListeners (getConfigListeners W ++ [f])
    (set_trace (trace W ++ init_calls host configUrl f)
       (set_heap
          (heap W ++ [constructed_ARnft host (length (heap W)) width height configUrl])
          W)).

(** The page after the three [Container] calls of the listener. *)
Definition page_after_Container (host : Host) (cfg : ConfigData.t)
    (doc : list string) : list string :=
  Container_document host
    (createStats (ConfigData.createHtml (ConfigData.stats cfg)) cfg)
    (Container_document host (createLoading cfg)
       (Container_document host (createContainer cfg) doc)).

(** With overlays requested, the page has the two slots "stats1" and
    "stats2" when the listener looks for them. *)
Definition overlay_slots (host : Host) (cfg : ConfigData.t) (stats : bool)
    (doc : list string) : bool :=
  negb stats
  || (bool_decide ("stats1" ∈ page_after_Container host cfg doc)
      && bool_decide ("stats2" ∈ page_after_Container host cfg doc)).

Definition overlay_calls (stats : bool) : list Effect :=
  if stats then
    [ Stats_new statsMain; Stats_showPanel statsMain 0;
      appendChild "stats1" statsMain;
      Stats_new statsWorker; Stats_showPanel statsWorker 0;
      appendChild "stats2" statsWorker ]
  else [].

(** The Camera View the listener builds on a page. *)
Definition camera_of (doc : list string) : CameraViewRenderer.t :=
  CameraViewRenderer.mk (if decide ("video" ∈ doc) then Some "video" else None).

(** The calls of the listener from its first statement to its [await]. *)
Definition head_calls (cfg : ConfigData.t) (stats : bool)
    (cam : CameraViewRenderer.t) : list Effect :=
  [ Container (createContainer cfg); Container (createLoading cfg);
    Container (createStats (ConfigData.createHtml (ConfigData.stats cfg)) cfg) ]
  ++ overlay_calls stats
  ++ [ CameraViewRenderer_new cam;
       CameraViewRenderer_initialize cam (ConfigData.videoSettings cfg) ].

(** The instance as the listener leaves it at its [await]. *)
Definition at_await (cfg : ConfigData.t) (cam : CameraViewRenderer.t)
    (o : ARnft) : ARnft :=
  set_cameraView (Some cam) (set_controllers (Some []) (set_appData (Some cfg) o)).

(** The world with the listener [f] parked at its [await]. *)
Definition parked (host : Host) (cfg : ConfigData.t) (f : Listener) (o : ARnft)
    (W : World) : World :=
  let doc := page_after_Container host cfg (document W) in
  set_awaiting (awaiting W ++ [f])
    (set_trace (trace W ++ head_calls cfg (l_stats f) (camera_of doc))
       (set_document doc
          (set_heap (<[l_this f := at_await cfg (camera_of doc) o]> (heap W)) W))).

(** The calls that set one session up, to its priming [process]. *)
Definition priming (cam : CameraViewRenderer.t) (cfg : ConfigData.t)
    (frame : nat) (stats : bool) (w : NFTWorker.t) : list Effect :=
  [ NFTWorker_new w;
    CameraViewRenderer_getImage cam;
    NFTWorker_initialize w (ConfigData.cameraPara cfg) frame
      (hook stats statsMain) (hook stats statsWorker);
    CameraViewRenderer_getImage cam;
    NFTWorker_process w frame ].

(** The calls of one run of [update] for the session at [index]. *)
Definition tick (cam : CameraViewRenderer.t) (frame : nat) (this index : nat)
    (w : NFTWorker.t) : list Effect :=
  [ CameraViewRenderer_getImage cam;
    NFTWorker_process w frame;
    requestAnimationFrame (mkUpdate this index) ].

(** The session of each marker locator, from array index [index] on. *)
Fixpoint sessions_from (width height : number) (uuid : string)
    (names markerUrls : list string) (index : nat) : list NFTWorker.t :=
  match markerUrls with
  | [] => []
  | markerUrl :: rest =>
      NFTWorker.mk markerUrl width height uuid (names !! index)
        :: sessions_from width height uuid names rest (S index)
  end.

(** The session of a marker descriptor. *)
Definition session_of (width height : number) (uuid : string) (d : Entity.t)
    : NFTWorker.t :=
  NFTWorker.mk (Entity.markerUrl d) width height uuid (Some (Entity.name d)).

(** Session by session: its set-up, then the first run of its loop. *)
Fixpoint startup_from (cam : CameraViewRenderer.t) (cfg : ConfigData.t)
    (frame : nat) (stats : bool) (this : nat) (ws : list NFTWorker.t)
    (index : nat) : list Effect :=
  match ws with
  | [] => []
  | w :: rest =>
      priming cam cfg frame stats w ++ tick cam frame this index w
        ++ startup_from cam cfg frame stats this rest (S index)
  end.

(** One pending [update] per session, in session order. *)
Definition loops_from (this : nat) (n index : nat) : list Update :=
  map (mkUpdate this) (seq index n).

(** The world after the parked listener [f] resumed and ran to its end. *)
Definition started (f : Listener) (o : ARnft) (cfg : ConfigData.t)
    (cam : CameraViewRenderer.t) (W : World) : World :=
  let ws := sessions_from (width o) (height o) (uuid o) (l_names f)
              (l_markerUrls f) 0 in
  set_animationFrames
    (animationFrames W ++ loops_from (l_this f) (length (l_markerUrls f)) 0)
    (set_trace
       (trace W ++ startup_from cam cfg (videoFrame W) (l_stats f) (l_this f) ws 0)
       (set_heap (<[l_this f := set_controllers (Some ws) o]> (heap W))
          (set_awaiting [] W))).

Definition is_initWithEntities (c : Command) : bool :=
  match c with call_initWithEntities _ _ _ _ _ => true | _ => false end.

(** A computation that neither reads nor writes the static entity list. *)
Definition entities_free {A} (m : Js A) : Prop :=
  forall v W,
    m (set_ARnft_entities v W) = ((m W).1, set_ARnft_entities v (m W).2).

Definition no_initWithEntities (cs : list Command) : bool :=
  forallb (fun c => negb (is_initWithEntities c)) cs.

(** ** The claims, as properties of an entry point *)

(** C1, for one entry point: the "getConfig" event alone constructs no
    session; once the camera is ready there is one session per descriptor,
    constructed in input order from the descriptor's locator and name and
    the orchestrator's width, height and identity. *)
Definition sessions_created (host : Host) (W : World)
    (entry : World -> Promise * World) (w h : number) (ds : list Entity.t)
    (cfg : ConfigData.t) : Prop :=
  let this := length (heap W) in
  let W2 := step host (fire_getConfig cfg) (entry W).2 in
  let W3 := step host (settle_camera 0 None) W2 in
  let sessions := map (session_of w h (uuidv4 host this)) ds in
  (entry W).1 = Resolved this
  /\ constructed (trace W2) = constructed (trace W)
  /\ constructed (trace W3) = constructed (trace W) ++ sessions
  /\ length sessions = length ds
  /\ exists o, heap W3 !! this = Some o
       /\ width o = w /\ height o = h /\ uuid o = uuidv4 host this
       /\ controllers o = Some sessions.

(** C7, for one entry point and the sessions [ws] it is to create: after
    the camera is ready the orchestrator holds exactly [ws], and the trace
    has grown, session by session of [ws], by the session's set-up
    ([priming]: construction, [initialize], one [process] of the frame the
    video shows then) followed by the first run of its loop ([tick]); every
    session of [ws] then has one [update] pending, and a run of [update] is
    a [tick] that requests the next one. *)
Definition primed_then_looping (host : Host) (W : World)
    (entry : World -> Promise * World) (stats : bool) (cfg : ConfigData.t)
    (ws : list NFTWorker.t) : Prop :=
  let this := length (heap W) in
  let W2 := step host (fire_getConfig cfg) (entry W).2 in
  let W3 := step host (settle_camera 0 None) W2 in
  exists o cam,
    heap W3 !! this = Some o /\ cameraView o = Some cam
    /\ controllers o = Some ws
    /\ trace W3 = trace W2 ++ startup_from cam cfg (videoFrame W2) stats this ws 0
    /\ animationFrames W3 = animationFrames W ++ loops_from this (length ws) 0
    /\ forall index w, ws !! index = Some w ->
         update this index W3
           = (Normal tt,
              set_animationFrames (animationFrames W3 ++ [mkUpdate this index])
                (set_trace (trace W3 ++ tick cam (videoFrame W3) this index w) W3)).

(** C2 as the specification states it: the camera's rejection rejects the
    promise of [init] with [false], and no session is constructed. *)
Definition camera_rejection_rejects_init (host : Host) (W : World)
    (w h : number) (markerUrls names : list string) (url : string)
    (stats : bool) (cfg : ConfigData.t) (error : JsValue) : Prop :=
  let started := init host w h markerUrls names url stats W in
  let W2 := step host (fire_getConfig cfg) started.2 in
  let W3 := step host (settle_camera 0 (Some error)) W2 in
  started.1 = Rejected JsFalse
  /\ constructed (trace W3) = constructed (trace W).

(** C3 as the specification states it: [dispose] on the handle [init]
    resolved to, before any "getConfig" event, completes normally. *)
Definition dispose_safe_before_config_ready (host : Host) (W : World)
    (w h : number) (markerUrls names : list string) (url : string)
    (stats : bool) : Prop :=
  let started := init host w h markerUrls names url stats W in
  exists W', dispose (length (heap W)) started.2 = (Normal tt, W').

(** ** A concrete page *)

Definition demo_host : Host :=
  mkHost (fun n => ("uuid-" ++ pretty n)%string) "1.0.0"
    (fun c doc =>
       match c with
       | createStats true _ => "stats1" :: "stats2" :: doc
       | _ => doc
       end).

Definition demo_config : ConfigData.t :=
  ConfigData.mk "video: 640x480" "camera_para.dat" (ConfigData.mkStats true).

Definition demo_page : World := page ["video"].

(** [init(640, 480, ["markerA"], ["Box"], "config.json", false)], then the
    "getConfig" event, then the camera ready. *)
Definition demo_commands : list Command :=
  [ call_init 640 480 ["markerA"] ["Box"] "config.json" false;
    fire_getConfig demo_config;
    settle_camera 0 None ].

(** ** Reading the object store *)

(** The fields of an orchestrator that no method assigns after
    construction. *)
Definition identity (o : ARnft)
    : number * number * string * option unit * option string * option string
      * EventTarget * string * string * number :=
  (width o, height o, configUrl o, listeners o, markerUrl o, camData o,
   target o, uuid o, version o, _lastTime o).

(** [h'] is a later state of the store [h]: the same addresses, and every
    object of [h] is related by [P] (at its address) to what it became. *)
Definition heap_rel (P : nat -> ARnft -> ARnft -> Prop) (h h' : list ARnft) : Prop :=
  length h' = length h
  /\ forall l o, h !! l = Some o -> exists o', h' !! l = Some o' /\ P l o o'.

(** A computation that takes every store to a later state of it. *)
Definition stable {A} (P : nat -> ARnft -> ARnft -> Prop) (m : Js A) : Prop :=
  forall W, heap_rel P (heap W) (heap (m W).2).

(** Same identity; with [fps] set, same [_fps] too. *)
Definition same_identity (fps : bool) (l : nat) (o o' : ARnft) : Prop :=
  identity o' = identity o /\ (fps = true -> _fps o' = _fps o).

(** Untouched, unless at one of the addresses [owners]. *)
Definition unchanged_outside (owners : list nat) (l : nat) (o o' : ARnft) : Prop :=
  l ∉ owners -> o' = o.

(** Untouched. *)
Definition unchanged (l : nat) (o o' : ARnft) : Prop := o' = o.

(** The three fields the config-ready listener assigns may change at
    address [this] without leaving [P]. *)
Definition assignable (P : nat -> ARnft -> ARnft -> Prop) (this : nat) : Prop :=
  (forall v o, P this o (set_appData v o))
  /\ (forall v o, P this o (set_cameraView v o))
  /\ (forall v o, P this o (set_controllers v o)).

(** The object a command allocates: one per [init] or [initWithEntities],
    none otherwise. *)
Definition allocated (host : Host) (c : Command) (W : World) : list ARnft :=
  match c with
  | call_init w h _ _ url _ | call_initWithEntities w h _ url _ =>
      [constructed_ARnft host (length (heap W)) w h url]
  | _ => []
  end.

(** The commands that call a method which assigns no field, and the
    browser's own steps. *)
Definition is_read_only (c : Command) : bool :=
  match c with
  | call_getEntities | call_getEventTarget _ | call_dispose _
  | call_disposeNFT _ | call_disposeVideoStream _ | animation_frame
  | video_plays _ => true
  | _ => false
  end.

Definition is_setFPS (c : Command) : bool :=
  match c with call_setFPS _ _ => true | _ => false end.

Definition no_setFPS (cs : list Command) : bool :=
  forallb (fun c => negb (is_setFPS c)) cs.

(** [dispose()] called [n] times in a row on one handle. *)
Definition disposals (this : nat) (n : nat) : list Command :=
  replicate n (call_dispose this).

(** The calls of one animation frame for the sessions [ws]: a [tick] per
    session, in session order. *)
Fixpoint ticks_from (cam : CameraViewRenderer.t) (frame : nat) (this : nat)
    (ws : list NFTWorker.t) (index : nat) : list Effect :=
  match ws with
  | [] => []
  | w :: rest =>
      tick cam frame this index w ++ ticks_from cam frame this rest (S index)
  end.

(** The orchestrator at [this] is running: it has a Camera View and the
    sessions [ws], and one [update] per session is pending, nothing else. *)
Definition running (W : World) (this : nat) (cam : CameraViewRenderer.t)
    (ws : list NFTWorker.t) : Prop :=
  (exists o, heap W !! this = Some o /\ cameraView o = Some cam
     /\ controllers o = Some ws)
  /\ animationFrames W = loops_from this (length ws) 0.

(** The three [Container] calls that open the listener. *)
Definition container_calls (cfg : ConfigData.t) : list Effect :=
  [ Container (createContainer cfg); Container (createLoading cfg);
    Container (createStats (ConfigData.createHtml (ConfigData.stats cfg)) cfg) ].

(** The overlay calls made before the listener finds a slot missing:
    "stats1" if [stats1] is false, "stats2" otherwise. *)
Definition overlay_calls_until_missing (stats1 : bool) : list Effect :=
  if stats1 then
    [ Stats_new statsMain; Stats_showPanel statsMain 0;
      appendChild "stats1" statsMain;
      Stats_new statsWorker; Stats_showPanel statsWorker 0 ]
  else [ Stats_new statsMain; Stats_showPanel statsMain 0 ].

Definition null_appendChild : JsValue :=
  TypeError "Cannot read properties of null: appendChild".

(** The world after a listener that found an overlay slot missing. *)
Definition aborted (host : Host) (cfg : ConfigData.t) (f : Listener) (o : ARnft)
    (W : World) : World :=
  let doc := page_after_Container host cfg (document W) in
  set_trace
    (trace W ++ container_calls cfg
       ++ overlay_calls_until_missing (bool_decide ("stats1" ∈ doc))
       ++ [unhandledrejection null_appendChild])
    (set_document doc
       (set_heap (<[l_this f := set_appData (Some cfg) o]> (heap W)) W)).

(** A configuration that asks [Container] for no stats panels. *)
Definition demo_config_plain : ConfigData.t :=
  ConfigData.mk "video: 640x480" "camera_para.dat" (ConfigData.mkStats false).

(** The demo page once more, now with a second "getConfig" event whose
    camera has not answered yet. *)
Definition demo_commands_refired : list Command :=
  demo_commands ++ [fire_getConfig demo_config].

(** The orchestrator of the demo page once [demo_commands] have run. *)
Definition demo_orchestrator : ARnft :=
  set_controllers (Some [NFTWorker.mk "markerA" 640 480 "uuid-0" (Some "Box")])
    (at_await demo_config (CameraViewRenderer.mk (Some "video"))
       (constructed_ARnft demo_host 0 640 480 "config.json")).

(** The demo page with a second orchestrator started after the first one
    is running. *)
Definition two_orchestrators : list Command :=
  demo_commands ++ [call_init 320 240 ["markerB"] ["Pinball"] "config.json" false].

(** The world after the listener [f], parked at index [k], resumed and ran
    to its end. *)
Definition resumed (k : nat) (f : Listener) (o : ARnft) (cfg : ConfigData.t)
    (cam : CameraViewRenderer.t) (W : World) : World :=
  let ws := sessions_from (width o) (height o) (uuid o) (l_names f)
              (l_markerUrls f) 0 in
  set_animationFrames
    (animationFrames W ++ loops_from (l_this f) (length (l_markerUrls f)) 0)
    (set_trace
       (trace W ++ startup_from cam cfg (videoFrame W) (l_stats f) (l_this f) ws 0)
       (set_heap (<[l_this f := set_controllers (Some ws) o]> (heap W))
          (set_awaiting (delete k (awaiting W)) W))).

(** The config-ready listener assigns [controllers] together with
    [cameraView], and both after [appData]: an orchestrator has a session
    list exactly when it has a Camera View, and then it has a
    configuration. *)
Definition consistent (o : ARnft) : Prop :=
  (is_Some (controllers o) <-> is_Some (cameraView o))
  /\ (is_Some (cameraView o) -> is_Some (appData o)).

(** One kept consistency. *)
Definition keeps_consistent (l : nat) (o o' : ARnft) : Prop :=
  consistent o -> consistent o'.

(** The [forEach] callback after its [push]: [initialize], the priming
    [process], the first [update]. *)
Definition after_push (this : nat) (stats : bool) (index : nat) : Js unit :=
  (w <- this_controllers_at this index ;;
   cfg <- this_appData this ;;
   frame <- getImage this ;;
   emit (NFTWorker_initialize w (ConfigData.cameraPara cfg) frame
           (hook stats statsMain) (hook stats statsWorker)) ;;
   w <- this_controllers_at this index ;;
   frame <- getImage this ;;
   emit (NFTWorker_process w frame) ;;
   update this index)%js.

(** ** Stepping through the [Js] monad *)

Ltac world_simpl :=
  cbn [heap ARnft_entities getConfigListeners awaiting animationFrames
       document videoFrame trace set_heap set_ARnft_entities
       set_getConfigListeners set_awaiting set_animationFrames set_document
       set_videoFrame set_trace fst snd].

Ltac js_unfold :=
  unfold update, this_controllers_at, this_controllers, this_appData,
    getImage, this_cameraView, bind, this_, emit, ret, throw, assign.

Ltac js_go :=
  repeat (progress (
    world_simpl;
    cbn [cameraView appData controllers set_appData set_cameraView
         set_controllers set__fps width height uuid version configUrl target];
    repeat match goal with
    | |- context [ <[?i := ?y]> (<[?i := ?x]> ?l) ] =>
        rewrite (list_insert_insert_eq l i y x)
    | Hlt : ?i < length ?l |- context [ <[?i := ?x]> ?l !! ?i ] =>
        rewrite (list_lookup_insert_eq l i x Hlt)
    | H : _ !! _ = Some _ |- _ => rewrite H
    | H : _ = Some _ |- _ => rewrite H
    end)).

Lemma bind_Normal {A B} (m : Js A) (k : A -> Js B) W a W' :
  m W = (Normal a, W') -> bind m k W = k a W'.
Proof. intros H. unfold bind. by rewrite H. Qed.

Lemma set_controllers_id (o : ARnft) : set_controllers (controllers o) o = o.
Proof. by destruct o. Qed.

Section Steps.

Variable host : Host.

Lemma update_eq W this index o cam cs w :
  heap W !! this = Some o -> cameraView o = Some cam ->
  controllers o = Some cs -> cs !! index = Some w ->
  update this index W
    = (Normal tt,
       set_animationFrames (animationFrames W ++ [mkUpdate this index])
         (set_trace (trace W ++ tick cam (videoFrame W) this index w) W)).
Proof.
  intros H1 H2 H3 H4. js_unfold. js_go.
  unfold tick. rewrite <- !app_assoc. destruct W; reflexivity.
Qed.

Lemma forEach_callback_eq W this names stats markerUrl index o cs cfg cam :
  heap W !! this = Some o -> controllers o = Some cs -> length cs = index ->
  appData o = Some cfg -> cameraView o = Some cam ->
  let w := NFTWorker.mk markerUrl (width o) (height o) (uuid o) (names !! index) in
  forEach_callback this names stats markerUrl index W
    = (Normal tt,
       set_animationFrames (animationFrames W ++ [mkUpdate this index])
         (set_trace (trace W ++ priming cam cfg (videoFrame W) stats w
                       ++ tick cam (videoFrame W) this index w)
            (set_heap (<[this := set_controllers (Some (cs ++ [w])) o]> (heap W)) W))).
Proof.
  intros H1 H2 H3 H4 H5 w.
  assert (Hlt : this < length (heap W)) by (by eapply lookup_lt_Some).
  assert (Hw : (cs ++ [w]) !! index = Some w).
  { subst index. by rewrite list_lookup_middle. }
  subst w. unfold forEach_callback. js_unfold. js_go.
  unfold priming, tick. rewrite <- !app_assoc. destruct W; reflexivity.
Qed.

Lemma forEach_from_eq names stats this cfg cam markerUrls :
  forall W index o cs,
  heap W !! this = Some o -> controllers o = Some cs -> length cs = index ->
  appData o = Some cfg -> cameraView o = Some cam ->
  let ws := sessions_from (width o) (height o) (uuid o) names markerUrls index in
  forEach_from (forEach_callback this names stats) markerUrls index W
    = (Normal tt,
       set_animationFrames
         (animationFrames W ++ loops_from this (length markerUrls) index)
         (set_trace
            (trace W ++ startup_from cam cfg (videoFrame W) stats this ws index)
            (set_heap (<[this := set_controllers (Some (cs ++ ws)) o]> (heap W)) W))).
Proof.
  induction markerUrls as [| markerUrl rest IH]; intros W index o cs H1 H2 H3 H4 H5.
  - cbn. unfold ret. rewrite !app_nil_r, <- H2, set_controllers_id.
    rewrite list_insert_id by done. destruct W; reflexivity.
  - cbn [forEach_from sessions_from startup_from].
    assert (Hlt : this < length (heap W)) by (by eapply lookup_lt_Some).
    erewrite bind_Normal by (by eapply forEach_callback_eq).
    set (w := NFTWorker.mk markerUrl (width o) (height o) (uuid o) (names !! index)).
    erewrite (IH _ (S index) (set_controllers (Some (cs ++ [w])) o) (cs ++ [w])).
    + world_simpl. rewrite list_insert_insert_eq.
      cbn [set_controllers cameraView appData width height uuid].
      unfold loops_from. cbn [length seq map].
      rewrite <- !app_assoc. cbn [app]. destruct W; reflexivity.
    + world_simpl. by apply list_lookup_insert_eq.
    + reflexivity.
    + rewrite length_app. cbn. lia.
    + exact H4.
    + exact H5.
Qed.

Lemma listener_head_eq W f cfg o :
  heap W !! l_this f = Some o ->
  overlay_slots host cfg (l_stats f) (document W) = true ->
  let doc := page_after_Container host cfg (document W) in
  listener_head host f cfg W
    = (Normal tt,
       set_trace (trace W ++ head_calls cfg (l_stats f) (camera_of doc))
         (set_document doc
            (set_heap (<[l_this f := at_await cfg (camera_of doc) o]> (heap W)) W))).
Proof.
  intros H1 Hslots doc.
  assert (Hlt : l_this f < length (heap W)) by (by eapply lookup_lt_Some).
  subst doc. unfold overlay_slots in Hslots.
  unfold camera_of, page_after_Container in *.
  unfold listener_head, Container_call, getElementById_appendChild,
    getElementById, exec.
  js_unfold.
  destruct (l_stats f); cbn [negb orb] in Hslots.
  - apply andb_prop in Hslots as [Hs1 Hs2].
    apply bool_decide_eq_true_1 in Hs1, Hs2.
    js_go. rewrite !(decide_True _ _ Hs1). js_go.
    rewrite !(decide_True _ _ Hs2). js_go.
    unfold head_calls, overlay_calls, at_await. cbn [app].
    rewrite <- !app_assoc. destruct W; reflexivity.
  - js_go. unfold head_calls, overlay_calls, at_await. cbn [app].
    rewrite <- !app_assoc. destruct W; reflexivity.
Qed.

(** The constructor. *)
Lemma new_ARnft_eq width height configUrl W :
  new_ARnft host width height configUrl W
    = (Normal (length (heap W)),
       set_trace (trace W ++ [console_log ["ARnft "; packageJson_version host]])
         (set_heap
            (heap W ++ [constructed_ARnft host (length (heap W)) width height configUrl])
            W)).
Proof.
  unfold new_ARnft, setFPS. js_unfold. cbv zeta. world_simpl.
  rewrite list_lookup_middle by done. world_simpl.
  rewrite list_lookup_middle by done.
  rewrite insert_app_r_alt by done. rewrite Nat.sub_diag. cbn [insert list_insert].
  world_simpl. rewrite list_lookup_middle by done.
  destruct W; reflexivity.
Qed.

Lemma _initialize_eq this markerUrls names stats W o :
  heap W !! this = Some o ->
  let f := mkListener this markerUrls names stats in
  _initialize this markerUrls names stats W
    = (Normal this,
       set_getConfigListeners (getConfigListeners W ++ [f])
         (set_trace
            (trace W ++ [dispatchEvent "initARnft"; console_log start_banner;
                         getConfig (configUrl o); addEventListener "getConfig" f])
            W)).
Proof.
  intros H1 f. unfold _initialize. js_unfold. js_go.
  rewrite <- !app_assoc. destruct W; reflexivity.
Qed.

Lemma init_eq w h markerUrls names url stats W :
  init host w h markerUrls names url stats W
    = (Resolved (length (heap W)),
       after_init host w h url
         (mkListener (length (heap W)) markerUrls names stats) W).
Proof.
  unfold init. rewrite new_ARnft_eq. unfold catch_reject_false.
  erewrite _initialize_eq.
  2: { world_simpl. by apply list_lookup_middle. }
  unfold after_init, init_calls. world_simpl.
  cbn [configUrl constructed_ARnft]. rewrite <- !app_assoc.
  destruct W; reflexivity.
Qed.

Lemma initWithEntities_eq w h entities url stats W :
  initWithEntities host w h entities url stats W
    = (Resolved (length (heap W)),
       set_ARnft_entities (Some entities)
         (after_init host w h url
            (mkListener (length (heap W)) (map Entity.markerUrl entities)
               (map Entity.name entities) stats) W)).
Proof.
  unfold initWithEntities. rewrite new_ARnft_eq. world_simpl.
  unfold catch_reject_false.
  erewrite _initialize_eq.
  2: { world_simpl. by apply list_lookup_middle. }
  unfold after_init, init_calls. world_simpl.
  cbn [configUrl constructed_ARnft]. rewrite <- !app_assoc.
  destruct W; reflexivity.
Qed.

(** With one listener on the target, the dispatch is over when that
    listener is at its [await] or has thrown. *)
Lemma fire_getConfig_alone W f cfg :
  getConfigListeners W = [f] ->
  step host (fire_getConfig cfg) W = listener_call host cfg W f.
Proof.
  intros Hf. cbn [step]. rewrite Hf. cbn [dispatch_getConfig].
  unfold listener_run, listener_call.
  by destruct (listener_head host f cfg W) as [[[] | e] W'].
Qed.

(** One listener on the target, and the page ready for it: a "getConfig"
    event parks it at its [await]. *)
Lemma fire_getConfig_eq W f o cfg :
  getConfigListeners W = [f] -> heap W !! l_this f = Some o ->
  overlay_slots host cfg (l_stats f) (document W) = true ->
  step host (fire_getConfig cfg) W = parked host cfg f o W.
Proof.
  intros Hf H1 Hslots. rewrite (fire_getConfig_alone _ _ _ Hf).
  unfold listener_call. rewrite (listener_head_eq _ _ _ _ H1 Hslots).
  unfold parked. destruct W; reflexivity.
Qed.

(** The parked listener resumes when the camera is ready, and runs to its
    end. *)
Lemma settle_camera_fulfilled_eq W f o cfg cam :
  awaiting W = [f] -> heap W !! l_this f = Some o ->
  controllers o = Some [] -> appData o = Some cfg -> cameraView o = Some cam ->
  step host (settle_camera 0 None) W = started f o cfg cam W.
Proof.
  intros Ha H1 H2 H3 H4. cbn [step]. rewrite Ha. cbn [lookup list_lookup].
  unfold dropped, listener_tail, forEach.
  by erewrite (forEach_from_eq _ _ _ cfg cam _ _ 0 o []).

Qed.

(** The parked listener resumes when the camera failed: it logs the error
    and its own promise rejects with [false]. *)
Lemma settle_camera_rejected_eq W f error :
  awaiting W = [f] ->
  step host (settle_camera 0 (Some error)) W
    = set_trace (trace W ++ [console_error error; unhandledrejection JsFalse])
        (set_awaiting [] W).
Proof.
  intros Ha. cbn [step]. rewrite Ha. cbn [lookup list_lookup].
  unfold dropped, listener_tail, exec. js_unfold. world_simpl.
  rewrite <- !app_assoc. destruct W; reflexivity.
Qed.

End Steps.

(** ** The static entity list is read and written by [initWithEntities] only *)

Lemma entities_free_ret {A} (a : A) : entities_free (ret a).
Proof. intros v W. reflexivity. Qed.

Lemma entities_free_throw {A} (e : JsValue) : entities_free (@throw A e).
Proof. intros v W. reflexivity. Qed.

Lemma entities_free_emit (e : Effect) : entities_free (emit e).
Proof. intros v W. reflexivity. Qed.

Lemma entities_free_bind {A B} (m : Js A) (k : A -> Js B) :
  entities_free m -> (forall a, entities_free (k a)) -> entities_free (bind m k).
Proof.
  intros Hm Hk v W. unfold bind. rewrite Hm.
  destruct (m W) as [[a | e] W']; cbn [fst snd]; [apply Hk | reflexivity].
Qed.

Lemma entities_free_this_ (this : nat) : entities_free (this_ this).
Proof. intros v W. unfold this_. cbn. by destruct (heap W !! this). Qed.

Lemma entities_free_assign (this : nat) (f : ARnft -> ARnft) :
  entities_free (assign this f).
Proof. intros v W. unfold assign. cbn. by destruct (heap W !! this). Qed.

Ltac entities_free :=
  repeat first
    [ apply entities_free_bind; [| intros ? ]
    | apply entities_free_emit
    | apply entities_free_ret
    | apply entities_free_throw
    | apply entities_free_this_
    | apply entities_free_assign
    | match goal with
      | |- entities_free (match ?x with _ => _ end) => destruct x
      end
    | (intros ? ?; reflexivity) ].

Lemma set_ARnft_entities_id (W : World) :
  set_ARnft_entities (ARnft_entities W) W = W.
Proof. by destruct W. Qed.

Lemma entities_free_exec {A} (m : Js A) v W :
  entities_free m ->
  exec m (set_ARnft_entities v W) = set_ARnft_entities v (exec m W).
Proof. intros Hm. unfold exec. by rewrite Hm. Qed.

Section Entities.

Variable host : Host.

Lemma entities_free_this_cameraView this : entities_free (this_cameraView this).
Proof. unfold this_cameraView. entities_free. Qed.

Lemma entities_free_this_appData this : entities_free (this_appData this).
Proof. unfold this_appData. entities_free. Qed.

Lemma entities_free_this_controllers_at this index :
  entities_free (this_controllers_at this index).
Proof. unfold this_controllers_at, this_controllers. entities_free. Qed.

Lemma entities_free_getImage this : entities_free (getImage this).
Proof. unfold getImage, this_cameraView. entities_free. Qed.

Lemma entities_free_update this index : entities_free (update this index).
Proof.
  unfold update.
  apply entities_free_bind; [apply entities_free_this_controllers_at | intros w].
  apply entities_free_bind; [apply entities_free_getImage | intros frame].
  entities_free.
Qed.

Lemma entities_free_forEach_callback this names stats markerUrl index :
  entities_free (forEach_callback this names stats markerUrl index).
Proof.
  unfold forEach_callback, this_controllers.
  repeat first
    [ apply entities_free_update
    | apply entities_free_bind;
        [ first [ apply entities_free_this_controllers_at
                | apply entities_free_getImage
                | apply entities_free_this_appData
                | idtac ]
        | intros ? ]
    | progress entities_free ].
Qed.

Lemma entities_free_forEach_from this names stats markerUrls :
  forall index,
    entities_free (forEach_from (forEach_callback this names stats) markerUrls index).
Proof.
  induction markerUrls as [| markerUrl rest IH]; intros index; cbn [forEach_from].
  - apply entities_free_ret.
  - apply entities_free_bind; [apply entities_free_forEach_callback | intros _; apply IH].
Qed.

Lemma entities_free_listener_tail f settled : entities_free (listener_tail f settled).
Proof.
  destruct settled as [error |]; cbn [listener_tail].
  - entities_free.
  - apply entities_free_forEach_from.
Qed.

Lemma entities_free_listener_head f cfg : entities_free (listener_head host f cfg).
Proof.
  unfold listener_head, Container_call, getElementById_appendChild, getElementById.
  repeat first
    [ apply entities_free_bind;
        [ first [ apply entities_free_this_appData
                | apply entities_free_this_cameraView
                | idtac ]
        | intros ? ]
    | progress entities_free ].
Qed.

Lemma listener_call_entities cfg v W f :
  listener_call host cfg (set_ARnft_entities v W) f
    = set_ARnft_entities v (listener_call host cfg W f).
Proof.
  unfold listener_call. rewrite entities_free_listener_head.
  destruct (listener_head host f cfg W) as [[[] | e] W']; reflexivity.
Qed.

Lemma listener_run_entities cfg v W f :
  listener_run host cfg (set_ARnft_entities v W) f
    = (set_ARnft_entities v (listener_run host cfg W f).1,
       (listener_run host cfg W f).2).
Proof.
  unfold listener_run. rewrite entities_free_listener_head.
  destruct (listener_head host f cfg W) as [[[] | e] W']; reflexivity.
Qed.

Lemma dispatch_getConfig_entities cfg fs v W :
  dispatch_getConfig host cfg fs (set_ARnft_entities v W)
    = (set_ARnft_entities v (dispatch_getConfig host cfg fs W).1,
       (dispatch_getConfig host cfg fs W).2).
Proof.
  revert W. induction fs as [| f fs IH]; intros W; cbn [dispatch_getConfig]; [done |].
  rewrite listener_run_entities. cbn [fst snd]. by rewrite IH.
Qed.

Lemma frame_callback_entities v W f :
  frame_callback (set_ARnft_entities v W) f
    = set_ARnft_entities v (frame_callback W f).
Proof.
  unfold frame_callback. rewrite entities_free_update.
  destruct (update (u_this f) (u_index f) W) as [[[] | e] W']; reflexivity.
Qed.

Lemma foldl_entities {A} (g : World -> A -> World) (xs : list A) :
  (forall v W x, g (set_ARnft_entities v W) x = set_ARnft_entities v (g W x)) ->
  forall v W,
    foldl g (set_ARnft_entities v W) xs = set_ARnft_entities v (foldl g W xs).
Proof.
  intros Hg. induction xs as [| x xs IH]; intros v W; cbn [foldl]; [done |].
  by rewrite Hg, IH.
Qed.

(** Every command but [initWithEntities] runs the same whatever the static
    entity list holds, and leaves that list as it is. *)
Lemma step_entities c v W :
  is_initWithEntities c = false ->
  step host c (set_ARnft_entities v W) = set_ARnft_entities v (step host c W).
Proof.
  intros Hc. destruct c; try discriminate Hc; cbn [step].
  - rewrite !init_eq. by destruct W.
  - apply entities_free_exec. unfold setFPS. entities_free.
  - reflexivity.
  - apply entities_free_exec. unfold getEventTarget. entities_free.
  - apply entities_free_exec. unfold dispose, disposeVideoStream, disposeNFT.
    apply entities_free_bind; [| intros ?; entities_free].
    apply entities_free_bind; [apply entities_free_this_cameraView | intros ?].
    entities_free.
  - apply entities_free_exec. unfold disposeNFT. entities_free.
  - apply entities_free_exec. unfold disposeVideoStream.
    apply entities_free_bind; [apply entities_free_this_cameraView | intros ?].
    entities_free.
  - world_simpl. rewrite dispatch_getConfig_entities. cbn [fst snd].
    unfold report_rejections. apply foldl_entities. reflexivity.
  - world_simpl. destruct (awaiting W !! k) as [f |]; [| reflexivity].
    unfold dropped.
    change (set_awaiting (delete k (awaiting W)) (set_ARnft_entities v W))
      with (set_ARnft_entities v (set_awaiting (delete k (awaiting W)) W)).
    rewrite entities_free_listener_tail.
    destruct (listener_tail f settled _) as [[[] | e] W']; reflexivity.
  - world_simpl.
    change (set_animationFrames [] (set_ARnft_entities v W))
      with (set_ARnft_entities v (set_animationFrames [] W)).
    apply foldl_entities. intros. apply frame_callback_entities.
  - reflexivity.
Qed.

Lemma run_entities cs v W :
  no_initWithEntities cs = true ->
  run host cs (set_ARnft_entities v W) = set_ARnft_entities v (run host cs W).
Proof.
  revert W. induction cs as [| c cs IH]; intros W Hcs; [done |].
  cbn in Hcs. apply andb_prop in Hcs as [Hc Hcs].
  apply negb_true_iff in Hc.
  unfold run in *. cbn [foldl]. rewrite step_entities by done. by apply IH.
Qed.

Lemma run_keeps_entities cs W :
  no_initWithEntities cs = true ->
  ARnft_entities (run host cs W) = ARnft_entities W.
Proof.
  intros Hcs. rewrite <- (set_ARnft_entities_id W) at 1.
  by rewrite run_entities.
Qed.

Lemma run_cons c cs W : run host (c :: cs) W = run host cs (step host c W).
Proof. reflexivity. Qed.

Lemma run_app cs1 cs2 W :
  run host (cs1 ++ cs2) W = run host cs2 (run host cs1 W).
Proof. unfold run. apply foldl_app. Qed.

End Entities.

(** ** Sessions in a trace *)

Lemma constructed_app t1 t2 :
  constructed (t1 ++ t2) = constructed t1 ++ constructed t2.
Proof. apply omap_app. Qed.

Lemma constructed_init_calls host url f : constructed (init_calls host url f) = [].
Proof. reflexivity. Qed.

Lemma constructed_head_calls cfg stats cam : constructed (head_calls cfg stats cam) = [].
Proof. by destruct stats. Qed.

Lemma constructed_startup_from cam cfg frame stats this ws :
  forall index, constructed (startup_from cam cfg frame stats this ws index) = ws.
Proof.
  induction ws as [| w ws IH]; intros index; [done |].
  cbn [startup_from]. rewrite !constructed_app, IH. reflexivity.
Qed.

Lemma length_sessions_from w h u names markerUrls :
  forall index,
    length (sessions_from w h u names markerUrls index) = length markerUrls.
Proof.
  induction markerUrls as [| m rest IH]; intros index; cbn; [done |].
  by rewrite IH.
Qed.

(** With the two parallel lists projected from one descriptor list, the
    session at an index is the session of the descriptor at that index. *)
Lemma sessions_from_descriptors w h u (ds : list Entity.t) :
  forall pre : list Entity.t,
    sessions_from w h u (map Entity.name (pre ++ ds)) (map Entity.markerUrl ds)
      (length pre)
    = map (session_of w h u) ds.
Proof.
  induction ds as [| d ds IH]; intros pre; [done |].
  cbn [map sessions_from]. f_equal.
  - unfold session_of. f_equal.
    rewrite list_lookup_fmap, list_lookup_middle by done. reflexivity.
  - specialize (IH (pre ++ [d])).
    rewrite <- app_assoc, length_app, Nat.add_comm in IH. exact IH.
Qed.

Section Startup.

Variable host : Host.

(** From a world where [f] is the only listener and nothing is parked: the
    event parks [f]; the camera's answer resumes it. *)
Lemma startup W1 f o cfg :
  getConfigListeners W1 = [f] -> awaiting W1 = [] ->
  heap W1 !! l_this f = Some o ->
  overlay_slots host cfg (l_stats f) (document W1) = true ->
  let cam := camera_of (page_after_Container host cfg (document W1)) in
  let W2 := step host (fire_getConfig cfg) W1 in
  W2 = parked host cfg f o W1
  /\ step host (settle_camera 0 None) W2 = started f (at_await cfg cam o) cfg cam W2
  /\ forall error,
       step host (settle_camera 0 (Some error)) W2
         = set_trace (trace W2 ++ [console_error error; unhandledrejection JsFalse])
             (set_awaiting [] W2).
Proof.
  intros Hf Ha H1 Hslots cam W2.
  assert (Hlt : l_this f < length (heap W1)) by (by eapply lookup_lt_Some).
  assert (HW2 : W2 = parked host cfg f o W1) by (by apply fire_getConfig_eq).
  assert (Ha2 : awaiting W2 = [f]).
  { rewrite HW2. unfold parked. world_simpl. by rewrite Ha. }
  split; [exact HW2 |]. split.
  - apply (settle_camera_fulfilled_eq host W2 f); try done.
    rewrite HW2. unfold parked. world_simpl. by apply list_lookup_insert_eq.
  - intros error. by apply (settle_camera_rejected_eq host W2 f).
Qed.

(** What [startup] needs holds after either entry point, when no other
    orchestrator listens on the page. *)
Lemma after_init_ready W w h url f cfg :
  getConfigListeners W = [] -> awaiting W = [] ->
  l_this f = length (heap W) ->
  overlay_slots host cfg (l_stats f) (document W) = true ->
  forall v,
    let W1 := set_ARnft_entities v (after_init host w h url f W) in
    getConfigListeners W1 = [f] /\ awaiting W1 = []
    /\ heap W1 !! l_this f = Some (constructed_ARnft host (length (heap W)) w h url)
    /\ overlay_slots host cfg (l_stats f) (document W1) = true.
Proof.
  intros Hf Ha Hthis Hslots v W1. subst W1. unfold after_init. world_simpl.
  rewrite Hf, Ha, Hthis. repeat split; try done.
  by apply list_lookup_middle.
Qed.

End Startup.

(** ** Initialisation, end to end *)

Section EndToEnd.

Variable host : Host.

Lemma after_init_entities w h url f W :
  after_init host w h url f W
    = set_ARnft_entities (ARnft_entities W) (after_init host w h url f W).
Proof. by destruct W. Qed.

Lemma sessions_created_entry W entry w h ds url stats cfg v :
  entry W
    = (Resolved (length (heap W)),
       set_ARnft_entities v
         (after_init host w h url
            (mkListener (length (heap W)) (map Entity.markerUrl ds)
               (map Entity.name ds) stats) W)) ->
  getConfigListeners W = [] -> awaiting W = [] ->
  overlay_slots host cfg stats (document W) = true ->
  sessions_created host W entry w h ds cfg.
Proof.
  intros Hentry Hf Ha Hslots.
  set (f := mkListener (length (heap W)) (map Entity.markerUrl ds)
              (map Entity.name ds) stats) in *.
  destruct (after_init_ready host W w h url f cfg Hf Ha eq_refl Hslots v)
    as (Hf1 & Ha1 & Hh1 & Hs1).
  destruct (startup host _ f _ cfg Hf1 Ha1 Hh1 Hs1) as (HW2 & HW3 & _).
  unfold sessions_created. rewrite Hentry. cbn [fst snd].
  rewrite HW3, HW2. clear HW2 HW3.
  unfold started, parked, after_init. world_simpl.
  cbn [l_this l_names l_markerUrls l_stats f].
  cbn [at_await set_cameraView set_controllers set_appData constructed_ARnft
       width height uuid controllers].
  rewrite (sessions_from_descriptors _ _ _ ds []).
  rewrite !constructed_app, constructed_init_calls, constructed_head_calls,
    constructed_startup_from, !app_nil_r.
  repeat split; try done.
  - by rewrite length_map.
  - eexists. split.
    + apply list_lookup_insert_eq. rewrite length_insert, length_app. cbn. lia.
    + done.
Qed.

Lemma primed_then_looping_entry W entry w h markerUrls names url stats cfg v :
  entry W
    = (Resolved (length (heap W)),
       set_ARnft_entities v
         (after_init host w h url
            (mkListener (length (heap W)) markerUrls names stats) W)) ->
  getConfigListeners W = [] -> awaiting W = [] ->
  overlay_slots host cfg stats (document W) = true ->
  primed_then_looping host W entry stats cfg
    (sessions_from w h (uuidv4 host (length (heap W))) names markerUrls 0).
Proof.
  intros Hentry Hf Ha Hslots.
  set (f := mkListener (length (heap W)) markerUrls names stats) in *.
  destruct (after_init_ready host W w h url f cfg Hf Ha eq_refl Hslots v)
    as (Hf1 & Ha1 & Hh1 & Hs1).
  destruct (startup host _ f _ cfg Hf1 Ha1 Hh1 Hs1) as (HW2 & HW3 & _).
  unfold primed_then_looping. rewrite Hentry. cbn [fst snd].
  set (W2 := step host (fire_getConfig cfg) _) in *.
  set (W3 := step host (settle_camera 0 None) W2) in *.
  set (cam := camera_of _) in *.
  set (o := at_await cfg cam _) in *.
  set (ws := sessions_from (width o) (height o) (uuid o) names markerUrls 0).
  assert (Hlt : length (heap W) < length (heap W2)).
  { rewrite HW2. unfold parked, after_init. world_simpl.
    rewrite length_insert, length_app. cbn. lia. }
  assert (Hloops : animationFrames W2 = animationFrames W) by (by rewrite HW2).
  assert (Ho3 : heap W3 !! length (heap W) = Some (set_controllers (Some ws) o)).
  { rewrite HW3. unfold started. world_simpl. cbn [l_this f].
    by apply list_lookup_insert_eq. }
  change (sessions_from w h (uuidv4 host (length (heap W))) names markerUrls 0)
    with ws.
  exists (set_controllers (Some ws) o), cam.
  split; [exact Ho3 |]. split; [reflexivity |]. split; [reflexivity |].
  split; [| split].
  - rewrite HW3. unfold started. by world_simpl.
  - rewrite HW3. unfold started. world_simpl. cbn [l_this l_markerUrls f].
    rewrite Hloops. unfold ws. by rewrite length_sessions_from.
  - intros index w' Hw'. by eapply update_eq.
Qed.

End EndToEnd.

(** ** The scenario of the specification, run *)

(** [init(640, 480, ["markerA"], ["Box"], "config.json", false)], the
    "getConfig" event, the camera ready: one session, built from "markerA",
    "Box", 640 and 480. *)
Example one_marker_one_session :
  constructed (trace (run demo_host demo_commands demo_page))
  = [NFTWorker.mk "markerA" 640 480 "uuid-0" (Some "Box")].
Proof. vm_compute. reflexivity. Qed.

(** A second "getConfig" event runs the listener again (it is never
    removed): [controllers] is reset and a second session is constructed
    for the same marker. *)
Example second_event_runs_the_listener_again :
  constructed
    (trace (run demo_host
              (demo_commands ++ [fire_getConfig demo_config; settle_camera 0 None])
              demo_page))
  = [NFTWorker.mk "markerA" 640 480 "uuid-0" (Some "Box");
     NFTWorker.mk "markerA" 640 480 "uuid-0" (Some "Box")].
Proof. vm_compute. reflexivity. Qed.

(** ** Counting calls *)

Lemma calls_app kind t1 t2 : calls kind (t1 ++ t2) = calls kind t1 + calls kind t2.
Proof. induction t1 as [| e t1 IH]; cbn; [done |]. rewrite IH. lia. Qed.

(** [dispose] with no Camera View: [this.cameraView.destroy()] throws, and
    [disposeNFT] is never reached. *)
Lemma dispose_without_cameraView W this o :
  heap W !! this = Some o -> cameraView o = None ->
  dispose this W = (Throw (undefined_read "cameraView"), W).
Proof.
  intros H1 H2. unfold dispose, disposeVideoStream. js_unfold. by rewrite H1, H2.
Qed.

(** ** The claims *)

(** C1.  Take any page on which no other orchestrator listens or is parked,
    and any list [ds] of marker descriptors.  Start either entry point
    ([init] on the two lists projected from [ds], or [initWithEntities] on
    [ds]), let the "getConfig" event fire and the camera become ready (with
    overlays requested, the page must hold their two slots).  Then exactly
    one session per descriptor has been constructed, in input order, the
    i-th from the i-th locator, the orchestrator's width, height and
    identity, and the i-th name; the instance's [controllers] is that list.
    Before the camera is ready no session is constructed. *)
Theorem init_creates_one_session_per_descriptor
    host W w h (ds : list Entity.t) url stats cfg :
  getConfigListeners W = [] -> awaiting W = [] ->
  overlay_slots host cfg stats (document W) = true ->
  sessions_created host W
    (init host w h (map Entity.markerUrl ds) (map Entity.name ds) url stats)
    w h ds cfg
  /\ sessions_created host W (initWithEntities host w h ds url stats) w h ds cfg.
Proof.
  intros Hf Ha Hslots. split.
  - eapply sessions_created_entry; try eassumption.
    rewrite init_eq. by rewrite after_init_entities at 1.
  - eapply sessions_created_entry; try eassumption.
    apply initWithEntities_eq.
Qed.

Lemma init_creates_one_session_per_descriptor_witness :
  sessions_created demo_host demo_page
    (init demo_host 640 480 ["markerA"] ["Box"] "config.json" true)
    640 480 [Entity.mk "Box" "markerA"] demo_config
  /\ sessions_created demo_host demo_page
       (initWithEntities demo_host 640 480 [Entity.mk "Box" "markerA"]
          "config.json" true)
       640 480 [Entity.mk "Box" "markerA"] demo_config.
Proof.
  apply (init_creates_one_session_per_descriptor demo_host demo_page 640 480
           [Entity.mk "Box" "markerA"] "config.json" true demo_config);
    reflexivity.
Defined.

(** C2 as the specification states it does not hold: on a page with a video
    element, the promise of [init] is resolved, not rejected, when the
    camera rejects. *)
Lemma camera_rejection_leaves_init_resolved :
  ~ camera_rejection_rejects_init demo_host demo_page 640 480 ["markerA"]
      ["Box"] "config.json" false demo_config (HostError "NotAllowedError").
Proof.
  intros [Hrejected _]. rewrite init_eq in Hrejected. discriminate Hrejected.
Qed.

(** C2, amended.  If Camera View initialisation rejects, the listener logs
    the error and makes no further call of the initialisation sequence: no
    session is constructed, [controllers] stays empty and no loop is
    started.  The promise that [init] returned was resolved with the
    orchestrator when the listener was registered. *)
Theorem camera_rejection_creates_no_session
    host W w h markerUrls names url stats cfg error :
  getConfigListeners W = [] -> awaiting W = [] ->
  overlay_slots host cfg stats (document W) = true ->
  let started := init host w h markerUrls names url stats W in
  let this := length (heap W) in
  let W2 := step host (fire_getConfig cfg) started.2 in
  let W3 := step host (settle_camera 0 (Some error)) W2 in
  started.1 = Resolved this
  /\ (exists rest, trace W3 = trace W2 ++ console_error error :: rest
        /\ calls is_config_ready_step rest = 0)
  /\ constructed (trace W3) = constructed (trace W)
  /\ (exists o, heap W3 !! this = Some o /\ controllers o = Some [])
  /\ animationFrames W3 = animationFrames W
  /\ awaiting W3 = [].
Proof.
  intros Hf Ha Hslots. cbv zeta. rewrite init_eq. cbn [fst snd].
  set (f := mkListener (length (heap W)) markerUrls names stats).
  rewrite (after_init_entities host w h url f W).
  destruct (after_init_ready host W w h url f cfg Hf Ha eq_refl Hslots
              (ARnft_entities W)) as (Hf1 & Ha1 & Hh1 & Hs1).
  destruct (startup host _ f _ cfg Hf1 Ha1 Hh1 Hs1) as (HW2 & _ & HW3).
  rewrite HW3, HW2. clear HW2 HW3.
  unfold parked, after_init. world_simpl. cbn [l_this l_stats f].
  rewrite !constructed_app, constructed_init_calls, constructed_head_calls.
  cbn [constructed omap app]. rewrite !app_nil_r.
  split; [reflexivity |]. split.
  { eexists. split; [by rewrite <- !app_assoc | reflexivity]. }
  repeat split; try done.
  eexists. split.
  - apply list_lookup_insert_eq. rewrite length_app. cbn. lia.
  - reflexivity.
Qed.

Lemma camera_rejection_creates_no_session_witness :
  let started :=
    init demo_host 640 480 ["markerA"] ["Box"] "config.json" true demo_page in
  let W2 := step demo_host (fire_getConfig demo_config) started.2 in
  let W3 :=
    step demo_host (settle_camera 0 (Some (HostError "NotAllowedError"))) W2 in
  started.1 = Resolved 0
  /\ (exists rest,
        trace W3 = trace W2 ++ console_error (HostError "NotAllowedError") :: rest
        /\ calls is_config_ready_step rest = 0)
  /\ constructed (trace W3) = []
  /\ (exists o, heap W3 !! 0 = Some o /\ controllers o = Some [])
  /\ animationFrames W3 = []
  /\ awaiting W3 = [].
Proof.
  apply (camera_rejection_creates_no_session demo_host demo_page 640 480
           ["markerA"] ["Box"] "config.json" true demo_config
           (HostError "NotAllowedError"));
    reflexivity.
Defined.

(** C3.  [dispose()] on the handle that
    [init(640, 480, ["markerA"], ["Box"], "config.json", false)] resolved
    to, before any "getConfig" event, is not safe: [this.cameraView] is
    still undefined, so [disposeVideoStream] throws a TypeError;
    [NFTWorker.stopNFT] is not called and the world is left as it was. *)
Theorem dispose_before_config_ready_throws :
  let started :=
    init demo_host 640 480 ["markerA"] ["Box"] "config.json" false demo_page in
  started.1 = Resolved 0
  /\ dispose 0 started.2 = (Throw (undefined_read "cameraView"), started.2)
  /\ ~ dispose_safe_before_config_ready demo_host demo_page 640 480
         ["markerA"] ["Box"] "config.json" false.
Proof.
  cbv zeta. unfold dispose_safe_before_config_ready.
  rewrite init_eq. cbn [fst snd].
  assert (Hthrows :
    dispose 0 (after_init demo_host 640 480 "config.json"
                 (mkListener 0 ["markerA"] ["Box"] false) demo_page)
    = (Throw (undefined_read "cameraView"),
       after_init demo_host 640 480 "config.json"
         (mkListener 0 ["markerA"] ["Box"] false) demo_page)).
  { by eapply dispose_without_cameraView. }
  split; [reflexivity |]. split; [exact Hthrows |].
  intros [W' HW']. cbn [length heap demo_page page] in HW'.
  rewrite Hthrows in HW'. discriminate HW'.
Qed.

(** The same on every page and for every call of [init]. *)
Lemma dispose_after_init_throws host W w h markerUrls names url stats :
  let started := init host w h markerUrls names url stats W in
  dispose (length (heap W)) started.2
    = (Throw (undefined_read "cameraView"), started.2).
Proof.
  cbv zeta. rewrite init_eq. cbn [snd].
  eapply dispose_without_cameraView.
  - unfold after_init. world_simpl. by apply list_lookup_middle.
  - reflexivity.
Qed.

(** C4.  Take any commands [after] that hold no call of [initWithEntities].
    Whatever ran before (earlier calls of [initWithEntities] on other lists
    included), once [initWithEntities] has been called on [es] and [after]
    has run, [getEntities()] returns exactly [es]: the last write wins, and
    the lists of two calls are never merged.  On a fresh page, where
    [initWithEntities] was never called, [getEntities()] returns
    [undefined]. *)
Theorem getEntities_returns_last_initWithEntities
    host (W : World) (doc : list string) (before after : list Command)
    w h (es : list Entity.t) url stats :
  no_initWithEntities after = true ->
  completion getEntities
    (run host (before ++ call_initWithEntities w h es url stats :: after) W)
    = Normal (Some es)
  /\ completion getEntities (run host after (page doc)) = Normal None.
Proof.
  intros Hafter. unfold completion, getEntities. cbn [fst]. split.
  - rewrite run_app, run_cons, run_keeps_entities by done.
    cbn [step]. by rewrite initWithEntities_eq.
  - by rewrite run_keeps_entities.
Qed.

Lemma getEntities_returns_last_initWithEntities_witness :
  completion getEntities
    (run demo_host
       ([call_initWithEntities 640 480 [Entity.mk "Box" "markerA"] "config.json" false]
        ++ call_initWithEntities 320 240
             [Entity.mk "Pinball" "markerB"; Entity.mk "Kuva" "markerC"]
             "config.json" true
        :: demo_commands)
       demo_page)
    = Normal (Some [Entity.mk "Pinball" "markerB"; Entity.mk "Kuva" "markerC"])
  /\ completion getEntities (run demo_host demo_commands (page ["video"]))
     = Normal None.
Proof.
  apply (getEntities_returns_last_initWithEntities demo_host demo_page ["video"]
           [call_initWithEntities 640 480 [Entity.mk "Box" "markerA"]
              "config.json" false]
           demo_commands 320 240
           [Entity.mk "Pinball" "markerB"; Entity.mk "Kuva" "markerC"]
           "config.json" true).
  reflexivity.
Defined.

(** C5.  [setFPS(v)] on an orchestrator stores [1000 / v] in its [_fps]
    field and completes normally, whatever the number [v] is: positive, zero
    (the period is then infinite) or negative.  No other field of the
    instance and nothing else in the world changes. *)
Theorem setFPS_stores_period (W : World) (this : nat) (o : ARnft) (v : number) :
  heap W !! this = Some o ->
  setFPS this v W
    = (Normal tt, set_heap (<[this := set__fps (1000 / v)%float o]> (heap W)) W)
  /\ heap (exec (setFPS this v) W) !! this = Some (set__fps (1000 / v)%float o)
  /\ _fps (set__fps (1000 / v)%float o) = (1000 / v)%float.
Proof.
  intros Hthis. unfold exec, setFPS, assign. rewrite Hthis. cbn.
  split; [reflexivity | split; [| reflexivity]].
  apply list_lookup_insert_eq. by eapply lookup_lt_Some.
Qed.

(** At 0 frames per second the stored period is infinite. *)
Lemma setFPS_stores_period_witness :
  let W := run demo_host demo_commands demo_page in
  exists o,
    heap W !! 0 = Some o
    /\ setFPS 0 0 W
       = (Normal tt, set_heap (<[0 := set__fps infinity o]> (heap W)) W)
    /\ heap (exec (setFPS 0 0) W) !! 0 = Some (set__fps infinity o)
    /\ _fps (set__fps infinity o) = infinity.
Proof.
  eexists. split; [vm_compute; reflexivity |].
  apply (setFPS_stores_period (run demo_host demo_commands demo_page) 0 _ 0%float).
  vm_compute; reflexivity.
Defined.

Example period_at_15_fps : (1000 / 15)%float = 0x1.0aaaaaaaaaaabp+6%float.
Proof. reflexivity. Qed.

Example period_at_0_fps : (1000 / 0)%float = infinity.
Proof. reflexivity. Qed.

Example period_at_negative_fps : (1000 / -4)%float = (-250)%float.
Proof. reflexivity. Qed.

(** The constructor's default of 15 frames per second goes through
    [setFPS]. *)
Example default_period :
  _fps (constructed_ARnft demo_host 0 640 480 "config.json")
  = 0x1.0aaaaaaaaaaabp+6%float.
Proof. reflexivity. Qed.

(** C6.  On every page, [init] and [initWithEntities] return a promise that
    is already resolved with the new orchestrator.  At that moment the calls
    made are those of the constructor and of [_initialize] up to the
    registration of the listener: none is a container, overlay, camera,
    session or loop call.  The instance has no Camera View, no configuration
    and no session list yet; no listener is parked and no animation frame is
    requested. *)
Theorem init_resolves_before_config_ready
    host W w h markerUrls names (ds : list Entity.t) url stats :
  let this := length (heap W) in
  let f := mkListener this markerUrls names stats in
  let g := mkListener this (map Entity.markerUrl ds) (map Entity.name ds) stats in
  init host w h markerUrls names url stats W
    = (Resolved this, after_init host w h url f W)
  /\ initWithEntities host w h ds url stats W
     = (Resolved this, set_ARnft_entities (Some ds) (after_init host w h url g W))
  /\ forall f' v,
       let W1 := set_ARnft_entities v (after_init host w h url f' W) in
       trace W1 = trace W ++ init_calls host url f'
       /\ calls is_config_ready_step (init_calls host url f') = 0
       /\ (exists o, heap W1 !! this = Some o /\ cameraView o = None
             /\ appData o = None /\ controllers o = None)
       /\ getConfigListeners W1 = getConfigListeners W ++ [f']
       /\ awaiting W1 = awaiting W
       /\ animationFrames W1 = animationFrames W.
Proof.
  cbv zeta. split; [apply init_eq |]. split; [apply initWithEntities_eq |].
  intros f' v. unfold after_init. world_simpl. repeat split.
  eexists. split; [by apply list_lookup_middle | done].
Qed.

(** C7.  In the setting of C1, for either entry point (and for any two
    lists given to [init]): once the camera is ready, the orchestrator
    holds one session per marker locator ([init]: the i-th built from the
    i-th locator and the i-th name; [initWithEntities]: the i-th built from
    the i-th descriptor), and every one of these sessions is constructed
    and initialised, receives exactly one [process] call with the current
    video frame, and only then does its loop start; the first run of the
    loop follows at once and requests the next one. *)
Theorem every_session_primed_before_its_loop
    host W w h markerUrls names (ds : list Entity.t) url stats cfg :
  getConfigListeners W = [] -> awaiting W = [] ->
  overlay_slots host cfg stats (document W) = true ->
  let this := length (heap W) in
  primed_then_looping host W (init host w h markerUrls names url stats) stats cfg
    (sessions_from w h (uuidv4 host this) names markerUrls 0)
  /\ primed_then_looping host W (initWithEntities host w h ds url stats) stats cfg
       (map (session_of w h (uuidv4 host this)) ds)
  /\ length (sessions_from w h (uuidv4 host this) names markerUrls 0)
     = length markerUrls
  /\ length (map (session_of w h (uuidv4 host this)) ds) = length ds.
Proof.
  intros Hf Ha Hslots this. split; [| split; [| split]].
  - eapply primed_then_looping_entry; try eassumption.
    rewrite init_eq. by rewrite after_init_entities at 1.
  - rewrite <- (sessions_from_descriptors _ _ _ ds []).
    eapply primed_then_looping_entry; try eassumption.
    apply initWithEntities_eq.
  - apply length_sessions_from.
  - apply length_map.
Qed.

Lemma every_session_primed_before_its_loop_witness :
  let ws := [NFTWorker.mk "markerA" 640 480 "uuid-0" (Some "Box");
             NFTWorker.mk "markerB" 640 480 "uuid-0" (Some "Pinball")] in
  primed_then_looping demo_host demo_page
    (init demo_host 640 480 ["markerA"; "markerB"] ["Box"; "Pinball"]
       "config.json" true)
    true demo_config ws
  /\ primed_then_looping demo_host demo_page
       (initWithEntities demo_host 640 480
          [Entity.mk "Box" "markerA"; Entity.mk "Pinball" "markerB"]
          "config.json" true)
       true demo_config ws
  /\ length ws = length ["markerA"; "markerB"]
  /\ length ws
     = length [Entity.mk "Box" "markerA"; Entity.mk "Pinball" "markerB"].
Proof.
  apply (every_session_primed_before_its_loop demo_host demo_page 640 480
           ["markerA"; "markerB"] ["Box"; "Pinball"]
           [Entity.mk "Box" "markerA"; Entity.mk "Pinball" "markerB"]
           "config.json" true demo_config);
    reflexivity.
Defined.

(** C8.  On an orchestrator that has a Camera View (as it has from the
    "getConfig" event on, and so whenever it has sessions), one call of
    [dispose()] completes normally and makes two calls: [destroy] on the
    Camera View, then the global [NFTWorker.stopNFT]; each exactly once. *)
Theorem dispose_destroys_and_stops_once (W : World) (this : nat) (o : ARnft)
    (cam : CameraViewRenderer.t) :
  heap W !! this = Some o -> cameraView o = Some cam ->
  dispose this W
    = (Normal tt,
       set_trace (trace W ++ [CameraViewRenderer_destroy cam; NFTWorker_stopNFT]) W)
  /\ calls is_stopNFT (trace (exec (dispose this) W))
     = calls is_stopNFT (trace W) + 1
  /\ calls is_destroy (trace (exec (dispose this) W))
     = calls is_destroy (trace W) + 1.
Proof.
  intros H1 H2.
  assert (Heq : dispose this W
    = (Normal tt,
       set_trace (trace W ++ [CameraViewRenderer_destroy cam; NFTWorker_stopNFT]) W)).
  { unfold dispose, disposeVideoStream, disposeNFT. js_unfold. js_go.
    rewrite <- app_assoc. destruct W; reflexivity. }
  split; [exact Heq |]. unfold exec. rewrite Heq. world_simpl.
  rewrite !calls_app. split; reflexivity.
Qed.

Lemma dispose_destroys_and_stops_once_witness :
  let W := run demo_host demo_commands demo_page in
  let cam := CameraViewRenderer.mk (Some "video") in
  dispose 0 W
    = (Normal tt,
       set_trace (trace W ++ [CameraViewRenderer_destroy cam; NFTWorker_stopNFT]) W)
  /\ calls is_stopNFT (trace (exec (dispose 0) W)) = calls is_stopNFT (trace W) + 1
  /\ calls is_destroy (trace (exec (dispose 0) W)) = calls is_destroy (trace W) + 1.
Proof.
  eapply (dispose_destroys_and_stops_once (run demo_host demo_commands demo_page) 0);
    vm_compute; reflexivity.
Defined.

(** C9.  [initWithEntities(width, height, entities, configUrl, stats)]
    returns what [init] returns on the two lists projected from [entities],
    and leaves the world [init] leaves except for the static entity list,
    which it overwrites with [entities].  From then on the two worlds stay
    in step: whatever commands follow (none of them a further
    [initWithEntities]), they differ in the static entity list only. *)
Theorem initWithEntities_is_init_on_projections
    host W w h (es : list Entity.t) url stats :
  let via_init :=
    init host w h (map Entity.markerUrl es) (map Entity.name es) url stats W in
  let direct := initWithEntities host w h es url stats W in
  direct = (via_init.1, set_ARnft_entities (Some es) via_init.2)
  /\ forall cs, no_initWithEntities cs = true ->
       run host cs direct.2 = set_ARnft_entities (Some es) (run host cs via_init.2).
Proof.
  cbv zeta. rewrite init_eq, initWithEntities_eq. cbn [fst snd].
  split; [reflexivity |]. intros cs Hcs. by apply run_entities.
Qed.

Lemma initWithEntities_is_init_on_projections_witness :
  run demo_host [fire_getConfig demo_config; settle_camera 0 None; animation_frame]
    (initWithEntities demo_host 640 480 [Entity.mk "Box" "markerA"]
       "config.json" true demo_page).2
  = set_ARnft_entities (Some [Entity.mk "Box" "markerA"])
      (run demo_host [fire_getConfig demo_config; settle_camera 0 None; animation_frame]
         (init demo_host 640 480 ["markerA"] ["Box"] "config.json" true demo_page).2).
Proof.
  apply (initWithEntities_is_init_on_projections demo_host demo_page 640 480
           [Entity.mk "Box" "markerA"] "config.json" true).
  reflexivity.
Defined.

(** C10.  On every world and for every handle, initialised or not,
    [disposeNFT()] completes normally, makes the one global call
    [NFTWorker.stopNFT], and leaves the store, hence every field of every
    orchestrator, as it was; its outcome does not depend on the handle. *)
Theorem disposeNFT_only_stops_sessions (W : World) (this : nat) :
  disposeNFT this W
    = (Normal tt, set_trace (trace W ++ [NFTWorker_stopNFT]) W)
  /\ heap (exec (disposeNFT this) W) = heap W
  /\ forall other, disposeNFT other W = disposeNFT this W.
Proof. repeat split. Qed.

(** ** What a computation does to the object store *)

Section Stable.

Variable P : nat -> ARnft -> ARnft -> Prop.
Hypothesis P_refl : forall l o, P l o o.
Hypothesis P_trans : forall l o1 o2 o3, P l o1 o2 -> P l o2 o3 -> P l o1 o3.

Lemma heap_rel_refl h : heap_rel P h h.
Proof. split; [done |]. intros l o Hl. eauto. Qed.

Lemma heap_rel_trans h1 h2 h3 :
  heap_rel P h1 h2 -> heap_rel P h2 h3 -> heap_rel P h1 h3.
Proof.
  intros [Hlen12 H12] [Hlen23 H23]. split; [congruence |].
  intros l o1 Hl. destruct (H12 l o1 Hl) as (o2 & Hl2 & HP12).
  destruct (H23 l o2 Hl2) as (o3 & Hl3 & HP23). eauto.
Qed.

Lemma heap_rel_insert h l o f :
  h !! l = Some o -> P l o (f o) -> heap_rel P h (<[l := f o]> h).
Proof.
  intros Hl HP. split; [by rewrite length_insert |].
  intros l' o' Hl'. destruct (decide (l = l')) as [<- | Hne].
  - rewrite Hl in Hl'. injection Hl' as <-. exists (f o). split; [| done].
    apply list_lookup_insert_eq. by eapply lookup_lt_Some.
  - exists o'. split; [| done]. by rewrite list_lookup_insert_ne.
Qed.

Lemma stable_same_heap {A} (m : Js A) :
  (forall W, heap (m W).2 = heap W) -> stable P m.
Proof. intros Hm W. rewrite Hm. apply heap_rel_refl. Qed.

Lemma stable_ret {A} (a : A) : stable P (ret a).
Proof. by apply stable_same_heap. Qed.

Lemma stable_throw {A} (e : JsValue) : stable P (@throw A e).
Proof. by apply stable_same_heap. Qed.

Lemma stable_emit (e : Effect) : stable P (emit e).
Proof. by apply stable_same_heap. Qed.

Lemma stable_this_ this : stable P (this_ this).
Proof.
  apply stable_same_heap. intros W. unfold this_. by destruct (heap W !! this).
Qed.

Lemma stable_bind {A B} (m : Js A) (k : A -> Js B) :
  stable P m -> (forall a, stable P (k a)) -> stable P (bind m k).
Proof.
  intros Hm Hk W. unfold bind. specialize (Hm W).
  destruct (m W) as [[a | e] W']; cbn [snd] in *; [| done].
  eapply heap_rel_trans; [exact Hm | apply Hk].
Qed.

Lemma stable_assign this f :
  (forall o, P this o (f o)) -> stable P (assign this f).
Proof.
  intros Hf W. unfold assign. destruct (heap W !! this) as [o |] eqn:Hl; cbn.
  - by apply heap_rel_insert.
  - apply heap_rel_refl.
Qed.

End Stable.

Ltac stable_side := try solve [assumption | auto].

Ltac stable :=
  repeat first
    [ apply stable_bind; stable_side; [| intros ? ]
    | apply stable_emit; stable_side
    | apply stable_ret; stable_side
    | apply stable_throw; stable_side
    | apply stable_this_; stable_side
    | apply stable_assign; stable_side
    | match goal with
      | |- stable _ (match ?x with _ => _ end) => destruct x
      end
    | (apply stable_same_heap; stable_side; intros ?; reflexivity) ].

Section StableMethods.

Variable host : Host.
Variable P : nat -> ARnft -> ARnft -> Prop.
Hypothesis P_refl : forall l o, P l o o.
Hypothesis P_trans : forall l o1 o2 o3, P l o1 o2 -> P l o2 o3 -> P l o1 o3.

Lemma stable_this_cameraView this : stable P (this_cameraView this).
Proof. unfold this_cameraView. stable. Qed.

Lemma stable_this_appData this : stable P (this_appData this).
Proof. unfold this_appData. stable. Qed.

Lemma stable_this_controllers_at this index :
  stable P (this_controllers_at this index).
Proof. unfold this_controllers_at, this_controllers. stable. Qed.

Lemma stable_getImage this : stable P (getImage this).
Proof. unfold getImage, this_cameraView. stable. Qed.

Lemma stable_update this index : stable P (update this index).
Proof.
  unfold update.
  apply stable_bind; stable_side; [apply stable_this_controllers_at | intros w].
  apply stable_bind; stable_side; [apply stable_getImage | intros frame].
  stable.
Qed.

Lemma stable_getEventTarget this : stable P (getEventTarget this).
Proof. unfold getEventTarget. stable. Qed.

Lemma stable_disposeVideoStream this : stable P (disposeVideoStream this).
Proof.
  unfold disposeVideoStream.
  apply stable_bind; stable_side; [apply stable_this_cameraView | intros cam].
  stable.
Qed.

Lemma stable_dispose this : stable P (dispose this).
Proof.
  unfold dispose, disposeNFT.
  apply stable_bind; stable_side; [apply stable_disposeVideoStream | intros _].
  stable.
Qed.

Section Assigning.

Variable this : nat.
Hypothesis P_appData : forall v o, P this o (set_appData v o).
Hypothesis P_cameraView : forall v o, P this o (set_cameraView v o).
Hypothesis P_controllers : forall v o, P this o (set_controllers v o).

Lemma stable_forEach_callback names stats markerUrl index :
  stable P (forEach_callback this names stats markerUrl index).
Proof.
  unfold forEach_callback, this_controllers.
  repeat first
    [ apply stable_update
    | apply stable_bind; stable_side;
        [ first [ apply stable_this_controllers_at
                | apply stable_getImage
                | apply stable_this_appData
                | idtac ]
        | intros ? ]
    | progress stable ].
Qed.

Lemma stable_forEach_from names stats markerUrls :
  forall index,
    stable P (forEach_from (forEach_callback this names stats) markerUrls index).
Proof.
  induction markerUrls as [| markerUrl rest IH]; intros index; cbn [forEach_from].
  - apply stable_ret; stable_side.
  - apply (stable_bind P P_trans); [apply stable_forEach_callback | intros _; apply IH].
Qed.

Lemma stable_listener_tail f settled :
  l_this f = this -> stable P (listener_tail f settled).
Proof.
  intros Hthis. destruct settled as [error |]; cbn [listener_tail].
  - stable.
  - rewrite Hthis. apply stable_forEach_from.
Qed.

Lemma stable_listener_head f cfg :
  l_this f = this -> stable P (listener_head host f cfg).
Proof.
  intros Hthis.
  unfold listener_head, Container_call, getElementById_appendChild, getElementById.
  rewrite Hthis.
  repeat first
    [ apply stable_bind; stable_side;
        [ first [ apply stable_this_appData
                | apply stable_this_cameraView
                | idtac ]
        | intros ? ]
    | progress stable ].
Qed.

End Assigning.

End StableMethods.

Lemma heap_rel_unchanged h h' : heap_rel unchanged h h' -> h' = h.
Proof.
  intros [Hlen Hh]. apply list_eq. intros l.
  destruct (h !! l) as [o |] eqn:Hl.
  - destruct (Hh l o Hl) as (o' & Hl' & ->). exact Hl'.
  - apply lookup_ge_None. apply lookup_ge_None in Hl. lia.
Qed.

Lemma heap_rel_weaken (P Q : nat -> ARnft -> ARnft -> Prop) h h' :
  (forall l o o', P l o o' -> Q l o o') -> heap_rel P h h' -> heap_rel Q h h'.
Proof.
  intros HPQ [Hlen Hh]. split; [done |]. intros l o Hl.
  destruct (Hh l o Hl) as (o' & Hl' & HP). eauto.
Qed.

Lemma unchanged_refl l o : unchanged l o o.
Proof. reflexivity. Qed.

Lemma unchanged_trans l o1 o2 o3 :
  unchanged l o1 o2 -> unchanged l o2 o3 -> unchanged l o1 o3.
Proof. unfold unchanged. congruence. Qed.

Lemma unchanged_outside_refl owners l o : unchanged_outside owners l o o.
Proof. by intros _. Qed.

Lemma unchanged_outside_trans owners l o1 o2 o3 :
  unchanged_outside owners l o1 o2 -> unchanged_outside owners l o2 o3 ->
  unchanged_outside owners l o1 o3.
Proof. unfold unchanged_outside. intros H12 H23 Hl. rewrite H23, H12; done. Qed.

Lemma unchanged_outside_here owners this o o' :
  this ∈ owners -> unchanged_outside owners this o o'.
Proof. by intros Hin Hout. Qed.

Lemma unchanged_outside_assignable owners this :
  this ∈ owners -> assignable (unchanged_outside owners) this.
Proof. intros Hin. repeat split; intros v o; by apply unchanged_outside_here. Qed.

Lemma same_identity_refl fps l o : same_identity fps l o o.
Proof. by split. Qed.

Lemma same_identity_trans fps l o1 o2 o3 :
  same_identity fps l o1 o2 -> same_identity fps l o2 o3 ->
  same_identity fps l o1 o3.
Proof.
  intros [Hi12 Hf12] [Hi23 Hf23]. split; [congruence |].
  intros Hfps. rewrite Hf23, Hf12; done.
Qed.

Lemma same_identity_assignable fps this : assignable (same_identity fps) this.
Proof. repeat split; intros v o; by split. Qed.

Section StableSteps.

Variable host : Host.
Variable P : nat -> ARnft -> ARnft -> Prop.
Hypothesis P_refl : forall l o, P l o o.
Hypothesis P_trans : forall l o1 o2 o3, P l o1 o2 -> P l o2 o3 -> P l o1 o3.

Lemma listener_call_heap_rel cfg W f :
  assignable P (l_this f) ->
  heap_rel P (heap W) (heap (listener_call host cfg W f)).
Proof.
  intros (Happ & Hcam & Hctl). unfold listener_call.
  pose proof (stable_listener_head host P P_refl P_trans (l_this f)
                Happ Hcam Hctl f cfg eq_refl W) as Hhead.
  by destruct (listener_head host f cfg W) as [[[] | e] W'].
Qed.

Lemma listener_run_heap cfg W f :
  heap (listener_run host cfg W f).1 = heap (listener_call host cfg W f).
Proof.
  unfold listener_run, listener_call.
  by destruct (listener_head host f cfg W) as [[[] | e] W'].
Qed.

Lemma report_rejections_heap rejected W :
  heap (report_rejections rejected W) = heap W.
Proof.
  unfold report_rejections. revert W.
  induction rejected as [| e es IH]; intros W; cbn [foldl]; [done |].
  by rewrite IH.
Qed.

Lemma fire_getConfig_heap_rel cfg W :
  (forall f, f ∈ getConfigListeners W -> assignable P (l_this f)) ->
  heap_rel P (heap W) (heap (step host (fire_getConfig cfg) W)).
Proof.
  cbn [step]. rewrite report_rejections_heap.
  generalize (getConfigListeners W) as fs. intros fs. revert W.
  induction fs as [| f fs IH]; intros W Hfs; cbn [dispatch_getConfig fst].
  - by apply heap_rel_refl.
  - apply (heap_rel_trans P P_trans _ (heap (listener_run host cfg W f).1)).
    + rewrite listener_run_heap. apply listener_call_heap_rel. apply Hfs. by left.
    + apply IH. intros f' Hf'. apply Hfs. by right.
Qed.

Lemma settle_camera_heap_rel k settled W :
  (forall f, awaiting W !! k = Some f -> assignable P (l_this f)) ->
  heap_rel P (heap W) (heap (step host (settle_camera k settled) W)).
Proof.
  intros Hf. cbn [step]. destruct (awaiting W !! k) as [f |]; [| by apply heap_rel_refl].
  destruct (Hf f eq_refl) as (Happ & Hcam & Hctl). unfold dropped.
  pose proof (stable_listener_tail P P_refl P_trans (l_this f)
                Hctl f settled eq_refl
                (set_awaiting (delete k (awaiting W)) W)) as Htail.
  by destruct (listener_tail f settled _) as [[[] | e] W'].
Qed.

Lemma frame_callback_heap_rel W f : heap_rel P (heap W) (heap (frame_callback W f)).
Proof.
  unfold frame_callback.
  pose proof (stable_update P P_refl P_trans (u_this f) (u_index f) W) as Hupdate.
  by destruct (update (u_this f) (u_index f) W) as [[[] | e] W'].
Qed.

Lemma animation_frame_heap_rel W :
  heap_rel P (heap W) (heap (step host animation_frame W)).
Proof.
  cbn [step].
  change (heap W) with (heap (set_animationFrames [] W)) at 1.
  generalize (set_animationFrames [] W) as W0.
  induction (animationFrames W) as [| f fs IH]; intros W0; cbn [foldl].
  - by apply heap_rel_refl.
  - eapply heap_rel_trans; [done | apply frame_callback_heap_rel | apply IH].
Qed.

Lemma read_only_heap_rel c W :
  is_read_only c = true -> heap_rel P (heap W) (heap (step host c W)).
Proof.
  intros Hc. destruct c; try discriminate Hc; cbn [step].
  - by apply heap_rel_refl.
  - apply (stable_getEventTarget P P_refl P_trans).
  - apply (stable_dispose P P_refl P_trans).
  - by apply heap_rel_refl.
  - apply (stable_disposeVideoStream P P_refl P_trans).
  - apply animation_frame_heap_rel.
  - by apply heap_rel_refl.
Qed.

End StableSteps.

(** ** The store along a run *)

Section Runs.

Variable host : Host.

Lemma step_same_identity fps c W :
  (fps = true -> is_setFPS c = false) ->
  heap_rel (same_identity fps) (heap W ++ allocated host c W)
    (heap (step host c W)).
Proof.
  intros Hfps.
  assert (Hrefl := same_identity_refl fps).
  assert (Htrans := same_identity_trans fps).
  assert (Hassign := same_identity_assignable fps).
  destruct c; cbn [allocated]; rewrite ?app_nil_r;
    try (apply read_only_heap_rel; done).
  - cbn [step]. rewrite init_eq. by apply heap_rel_refl.
  - cbn [step]. rewrite initWithEntities_eq. by apply heap_rel_refl.
  - cbn [step]. apply stable_assign; try done.
    intros o. split; [done |]. intros ->. by specialize (Hfps eq_refl).
  - apply fire_getConfig_heap_rel; auto.
  - apply settle_camera_heap_rel; auto.
Qed.

Lemma run_same_identity fps cs :
  (fps = true -> no_setFPS cs = true) ->
  forall W l o,
    heap W !! l = Some o ->
    exists o', heap (run host cs W) !! l = Some o' /\ same_identity fps l o o'.
Proof.
  induction cs as [| c cs IH]; intros Hfps W l o Hl.
  - exists o. split; [done | apply same_identity_refl].
  - rewrite run_cons.
    assert (Hc : fps = true -> is_setFPS c = false).
    { intros Ht. specialize (Hfps Ht). cbn in Hfps.
      apply andb_prop in Hfps as [Hc _]. by apply negb_true_iff in Hc. }
    assert (Hcs : fps = true -> no_setFPS cs = true).
    { intros Ht. specialize (Hfps Ht). cbn in Hfps.
      by apply andb_prop in Hfps as [_ Hcs]. }
    destruct (step_same_identity fps c W Hc) as [_ Hstep].
    destruct (Hstep l o) as (o1 & Hl1 & H1); [by apply lookup_app_l_Some |].
    destruct (IH Hcs _ l o1 Hl1) as (o2 & Hl2 & H2).
    exists o2. split; [done |]. by eapply same_identity_trans.
Qed.

(** Every object of a store reached from a fresh page was built by the
    constructor at its own address. *)
Lemma run_page_identity doc cs :
  forall l o,
    heap (run host cs (page doc)) !! l = Some o ->
    exists w h url, identity o = identity (constructed_ARnft host l w h url).
Proof.
  induction cs as [| c cs IH] using rev_ind; intros l o Hl; [done |].
  rewrite run_app in Hl. cbn [run foldl] in Hl. fold (run host cs) in Hl.
  set (W := run host cs (page doc)) in *.
  destruct (step_same_identity false c W) as [Hlen Hstep]; [done |].
  assert (Hlt : l < length (heap W ++ allocated host c W)).
  { rewrite <- Hlen. by eapply lookup_lt_Some. }
  apply lookup_lt_is_Some in Hlt as [o0 Hl0].
  destruct (Hstep l o0 Hl0) as (o' & Hl' & [Hid _]).
  rewrite Hl in Hl'. injection Hl' as <-. rewrite Hid.
  apply lookup_app_Some in Hl0 as [Hold | [Hge Hnew]].
  - by apply IH.
  - destruct c; cbn [allocated] in Hnew; try done.
    + apply list_lookup_singleton_Some in Hnew as [Hz <-].
      replace l with (length (heap W)) by lia. eauto.
    + apply list_lookup_singleton_Some in Hnew as [Hz <-].
      replace l with (length (heap W)) by lia. eauto.
Qed.

(** [dispose] either throws at once or makes its two calls; either way it
    changes nothing but the trace. *)
Lemma dispose_cases this W :
  (exists e, dispose this W = (Throw e, W))
  \/ (exists o cam,
        heap W !! this = Some o /\ cameraView o = Some cam
        /\ dispose this W
           = (Normal tt,
              set_trace (trace W ++ [CameraViewRenderer_destroy cam; NFTWorker_stopNFT]) W)).
Proof.
  unfold dispose, disposeVideoStream, disposeNFT. js_unfold.
  destruct (heap W !! this) as [o |] eqn:Hl; [| left; eauto].
  destruct (cameraView o) as [cam |] eqn:Hcam; [| left; eauto].
  right. exists o, cam. split; [done |]. split; [done |].
  world_simpl. rewrite <- app_assoc. by destruct W.
Qed.

End Runs.

(** ** Animation frames *)

Lemma loops_from_S this n index :
  loops_from this (S n) index = mkUpdate this index :: loops_from this n (S index).
Proof. reflexivity. Qed.

Lemma frame_callbacks_tick this o cam :
  forall (suf pre : list NFTWorker.t) W,
    heap W !! this = Some o -> cameraView o = Some cam ->
    controllers o = Some (pre ++ suf) ->
    foldl frame_callback W (loops_from this (length suf) (length pre))
    = set_animationFrames
        (animationFrames W ++ loops_from this (length suf) (length pre))
        (set_trace
           (trace W ++ ticks_from cam (videoFrame W) this suf (length pre)) W).
Proof.
  induction suf as [| w suf IH]; intros pre W Hl Hcam Hctl.
  - cbn. rewrite !app_nil_r. by destruct W.
  - cbn [length]. rewrite loops_from_S. cbn [foldl ticks_from].
    unfold frame_callback at 2. cbn [u_this u_index].
    erewrite update_eq; [| done | done | done | by apply list_lookup_middle].
    specialize (IH (pre ++ [w])). rewrite length_app, Nat.add_1_r in IH.
    rewrite IH; [| done | done | by rewrite <- app_assoc].
    world_simpl. rewrite <- !app_assoc. by destruct W.
Qed.

Lemma frame_callbacks_tick_all this o cam ws W :
  heap W !! this = Some o -> cameraView o = Some cam -> controllers o = Some ws ->
  foldl frame_callback W (loops_from this (length ws) 0)
  = set_animationFrames (animationFrames W ++ loops_from this (length ws) 0)
      (set_trace (trace W ++ ticks_from cam (videoFrame W) this ws 0) W).
Proof. intros Hl Hcam Hctl. exact (frame_callbacks_tick this o cam ws [] W Hl Hcam Hctl). Qed.

(** An [update] whose index is past the end of [controllers] throws before
    it requests the next frame. *)
Lemma update_past_the_end W this index o cs :
  heap W !! this = Some o -> controllers o = Some cs -> length cs <= index ->
  update this index W = (Throw (undefined_read "controllers[index]"), W).
Proof.
  intros Hl Hctl Hlen. js_unfold. rewrite Hl, Hctl.
  by rewrite (proj2 (lookup_ge_None cs index) Hlen).
Qed.

Lemma frame_callbacks_throw this o cs :
  forall (indices : list nat) W,
    heap W !! this = Some o -> controllers o = Some cs ->
    Forall (fun index => length cs <= index) indices ->
    foldl frame_callback W (map (mkUpdate this) indices)
    = set_trace
        (trace W
         ++ map (fun _ => uncaught (undefined_read "controllers[index]")) indices)
        W.
Proof.
  induction indices as [| index indices IH]; intros W Hl Hctl Hall.
  - cbn. rewrite app_nil_r. by destruct W.
  - apply Forall_cons in Hall as [Hindex Hall]. cbn [map foldl].
    unfold frame_callback at 2. cbn [u_this u_index].
    erewrite update_past_the_end by done.
    rewrite IH by done. unfold exec, emit. world_simpl.
    rewrite <- app_assoc. by destruct W.
Qed.

Lemma constructed_uncaught {A} (e : JsValue) (xs : list A) :
  constructed (map (fun _ => uncaught e) xs) = [].
Proof. induction xs as [| x xs IH]; [done | exact IH]. Qed.

Section Frames.

Variable host : Host.

Lemma animation_frame_running W this cam ws :
  running W this cam ws ->
  step host animation_frame W
  = set_trace (trace W ++ ticks_from cam (videoFrame W) this ws 0) W.
Proof.
  intros [(o & Hl & Hcam & Hctl) Hloops]. cbn [step]. rewrite Hloops.
  pose proof (frame_callbacks_tick this o cam ws [] (set_animationFrames [] W)
                Hl Hcam Hctl) as Hfold.
  cbn [length] in Hfold. rewrite Hfold.
  world_simpl. cbn [app]. rewrite <- Hloops. by destruct W.
Qed.

Lemma running_set_trace W this cam ws t :
  running W this cam ws -> running (set_trace t W) this cam ws.
Proof. done. Qed.

Lemma animation_frames_running W this cam ws :
  running W this cam ws ->
  forall n,
    run host (replicate n animation_frame) W
    = set_trace
        (trace W ++ mjoin (replicate n (ticks_from cam (videoFrame W) this ws 0)))
        W.
Proof.
  intros Hrun n. revert W Hrun. induction n as [| n IH]; intros W Hrun.
  - cbn. rewrite app_nil_r. by destruct W.
  - cbn [replicate]. rewrite run_cons, (animation_frame_running _ _ _ _ Hrun).
    rewrite IH by (by apply running_set_trace).
    world_simpl. cbn [mjoin list_join]. rewrite <- app_assoc. by destruct W.
Qed.

(** Two [update]s pending per session: a frame runs each session twice. *)
Lemma animation_frame_running_twice W this cam ws :
  (exists o, heap W !! this = Some o /\ cameraView o = Some cam
     /\ controllers o = Some ws) ->
  animationFrames W = loops_from this (length ws) 0 ++ loops_from this (length ws) 0 ->
  step host animation_frame W
  = set_trace
      (trace W ++ ticks_from cam (videoFrame W) this ws 0
               ++ ticks_from cam (videoFrame W) this ws 0)
      W.
Proof.
  intros (o & Hl & Hcam & Hctl) Hloops. cbn [step]. rewrite Hloops, foldl_app.
  rewrite (frame_callbacks_tick_all this o cam ws (set_animationFrames [] W)
             Hl Hcam Hctl).
  erewrite (frame_callbacks_tick_all this o cam ws);
    [| world_simpl; exact Hl | exact Hcam | exact Hctl].
  world_simpl. cbn [app]. rewrite <- Hloops, <- app_assoc. by destruct W.
Qed.

Lemma animation_frames_running_twice W this cam ws :
  (exists o, heap W !! this = Some o /\ cameraView o = Some cam
     /\ controllers o = Some ws) ->
  animationFrames W = loops_from this (length ws) 0 ++ loops_from this (length ws) 0 ->
  forall n,
    run host (replicate n animation_frame) W
    = set_trace
        (trace W
         ++ mjoin (replicate n (ticks_from cam (videoFrame W) this ws 0
                                ++ ticks_from cam (videoFrame W) this ws 0)))
        W.
Proof.
  intros Ho Hloops n. revert W Ho Hloops.
  induction n as [| n IH]; intros W Ho Hloops.
  - cbn. rewrite app_nil_r. by destruct W.
  - cbn [replicate].
    rewrite run_cons, (animation_frame_running_twice _ _ _ _ Ho Hloops).
    rewrite IH by done.
    world_simpl. cbn [mjoin list_join]. rewrite <- !app_assoc. by destruct W.
Qed.

Lemma disposals_running W this cam ws :
  running W this cam ws ->
  forall n,
    run host (disposals this n) W
    = set_trace
        (trace W
         ++ mjoin (replicate n [CameraViewRenderer_destroy cam; NFTWorker_stopNFT]))
        W.
Proof.
  intros Hrun n. revert W Hrun. induction n as [| n IH]; intros W Hrun.
  - cbn. rewrite app_nil_r. by destruct W.
  - unfold disposals in *. cbn [replicate]. rewrite run_cons. cbn [step].
    destruct Hrun as [(o & Hl & Hcam & Hctl) Hloops].
    destruct (dispose_cases this W) as [[e He] | (o' & cam' & Hl' & Hcam' & Heq)].
    + exfalso. revert He. unfold dispose, disposeVideoStream, disposeNFT.
      js_unfold. rewrite Hl, Hcam. world_simpl. discriminate.
    + rewrite Hl in Hl'. injection Hl' as <-.
      rewrite Hcam in Hcam'. injection Hcam' as <-.
      unfold exec. rewrite Heq. cbn [snd].
      rewrite IH.
      * world_simpl. cbn [mjoin list_join]. rewrite <- app_assoc. by destruct W.
      * split; [exists o |]; done.
Qed.

End Frames.

(** ** The listener, case by case *)

Lemma sessions_from_lookup w h u names markerUrls :
  forall index k,
    sessions_from w h u names markerUrls index !! k
    = (fun markerUrl => NFTWorker.mk markerUrl w h u (names !! (index + k)))
        <$> markerUrls !! k.
Proof.
  induction markerUrls as [| m rest IH]; intros index k; [done |].
  destruct k as [| k]; cbn [sessions_from].
  - cbn. by rewrite Nat.add_0_r.
  - change ((?x :: ?l) !! S k) with (l !! k). rewrite (IH (S index) k).
    by replace (S index + k) with (index + S k) by lia.
Qed.

Section Listener.

Variable host : Host.

(** With overlays requested and a slot missing, the listener stops at the
    [appendChild] on [null]: the configuration is stored, nothing else. *)
Lemma listener_call_aborted W f cfg o :
  heap W !! l_this f = Some o ->
  overlay_slots host cfg (l_stats f) (document W) = false ->
  listener_call host cfg W f = aborted host cfg f o W.
Proof.
  intros H1 Hslots.
  assert (Hlt : l_this f < length (heap W)) by (by eapply lookup_lt_Some).
  unfold overlay_slots in Hslots. unfold aborted, listener_call.
  unfold page_after_Container in *.
  unfold listener_head, Container_call, getElementById_appendChild,
    getElementById, exec.
  js_unfold.
  destruct (l_stats f); cbn [negb orb] in Hslots; [| discriminate Hslots].
  js_go.
  destruct (decide ("stats1" ∈ _)) as [Hs1 | Hs1].
  - rewrite (bool_decide_eq_true_2 _ Hs1) in *. cbn [andb] in Hslots.
    apply bool_decide_eq_false_1 in Hslots.
    js_go. rewrite (decide_False _ _ Hslots). js_go.
    unfold container_calls, overlay_calls_until_missing, null_appendChild.
    cbn [app]. rewrite <- !app_assoc. by destruct W.
  - rewrite (bool_decide_eq_false_2 _ Hs1). js_go.
    unfold container_calls, overlay_calls_until_missing, null_appendChild.
    cbn [app]. rewrite <- !app_assoc. by destruct W.
Qed.

(** [init] on a page where nobody listens, then the event and the camera's
    answer, whatever the two lists are. *)
Lemma init_startup W w h markerUrls names url stats cfg :
  getConfigListeners W = [] -> awaiting W = [] ->
  overlay_slots host cfg stats (document W) = true ->
  let this := length (heap W) in
  let f := mkListener this markerUrls names stats in
  let o := constructed_ARnft host this w h url in
  let cam := camera_of (page_after_Container host cfg (document W)) in
  let W1 := after_init host w h url f W in
  let W2 := step host (fire_getConfig cfg) W1 in
  init host w h markerUrls names url stats W = (Resolved this, W1)
  /\ W2 = parked host cfg f o W1
  /\ step host (settle_camera 0 None) W2 = started f (at_await cfg cam o) cfg cam W2
  /\ forall error,
       step host (settle_camera 0 (Some error)) W2
       = set_trace (trace W2 ++ [console_error error; unhandledrejection JsFalse])
           (set_awaiting [] W2).
Proof.
  intros Hf Ha Hslots this f o cam W1 W2.
  split; [apply init_eq |].
  destruct (after_init_ready host W w h url f cfg Hf Ha eq_refl Hslots
              (ARnft_entities W)) as (Hf1 & Ha1 & Hh1 & Hs1).
  rewrite <- after_init_entities in Hf1, Ha1, Hh1, Hs1.
  exact (startup host W1 f o cfg Hf1 Ha1 Hh1 Hs1).
Qed.

End Listener.

(** ** More of the class *)

(** X1.  [new ARnft(width, height, configUrl)] allocates the next address,
    stores there the object with the given fields, the page's identity for
    that address, the package version and the period of 15 frames per
    second, and makes one call, the [console.log] of the version.  Every
    orchestrator already on the page is left as it was, and [setFPS(15)] on
    the new one changes nothing. *)
Theorem constructor_allocates_and_logs host w h url W :
  let this := length (heap W) in
  let W' := exec (new_ARnft host w h url) W in
  new_ARnft host w h url W
  = (Normal this,
     set_trace (trace W ++ [console_log ["ARnft "; packageJson_version host]])
       (set_heap (heap W ++ [constructed_ARnft host this w h url]) W))
  /\ (forall l o, heap W !! l = Some o -> heap W' !! l = Some o)
  /\ exec (setFPS this 15) W' = W'.
Proof.
  cbv zeta. unfold exec. rewrite new_ARnft_eq. cbn [snd]. split; [done |]. split.
  - intros l o Hl. world_simpl. by apply lookup_app_l_Some.
  - unfold setFPS, assign. world_simpl.
    rewrite list_lookup_middle by done. cbn [snd]. world_simpl.
    rewrite list_insert_id; [by destruct W |].
    by rewrite list_lookup_middle.
Qed.

(** X2.  On a page reached from a fresh one by any commands, every
    orchestrator still carries what its constructor gave it at its address
    (identity, version, [window] as target, the never assigned fields
    undefined), and [getEventTarget()] returns [window] and changes
    nothing. *)
Theorem getEventTarget_returns_window host doc cs l :
  let W := run host cs (page doc) in
  l < length (heap W) ->
  getEventTarget l W = (Normal window, W)
  /\ exists o w h url,
       heap W !! l = Some o
       /\ identity o = identity (constructed_ARnft host l w h url).
Proof.
  cbv zeta. intros Hlt. apply lookup_lt_is_Some in Hlt as [o Hl].
  destruct (run_page_identity host doc cs l o Hl) as (w & h & url & Hid).
  split; [| by exists o, w, h, url].
  unfold getEventTarget. js_unfold. rewrite Hl.
  assert (Htarget : target o = window).
  { change (target o) with (identity o).1.1.1.2. by rewrite Hid. }
  by rewrite Htarget.
Qed.

Lemma getEventTarget_returns_window_witness :
  let W := run demo_host demo_commands (page ["video"]) in
  getEventTarget 0 W = (Normal window, W)
  /\ exists o w h url,
       heap W !! 0 = Some o
       /\ identity o = identity (constructed_ARnft demo_host 0 w h url).
Proof.
  apply (getEventTarget_returns_window demo_host ["video"] demo_commands 0).
  vm_compute. lia.
Defined.

(** X3.  Whatever commands run, an orchestrator keeps its address and its
    [width], [height], [configUrl], [target], [uuid], [version],
    [_lastTime] and the three never assigned fields; and as long as
    [setFPS] is not called on any handle, it keeps its [_fps]. *)
Theorem identity_fields_never_change host cs W l o :
  heap W !! l = Some o ->
  exists o',
    heap (run host cs W) !! l = Some o'
    /\ identity o' = identity o
    /\ (no_setFPS cs = true -> _fps o' = _fps o).
Proof.
  intros Hl.
  destruct (run_same_identity host false cs ltac:(done) W l o Hl)
    as (o' & Hl' & [Hid _]).
  exists o'. split; [done |]. split; [done |]. intros Hcs.
  destruct (run_same_identity host true cs ltac:(done) W l o Hl)
    as (o'' & Hl'' & [_ Hfps]).
  rewrite Hl' in Hl''. injection Hl'' as <-. by apply Hfps.
Qed.

Lemma identity_fields_never_change_witness :
  let o := constructed_ARnft demo_host 0 640 480 "config.json" in
  let cs := [fire_getConfig demo_config; settle_camera 0 None; animation_frame;
             call_dispose 0; call_disposeNFT 0] in
  exists o',
    heap (run demo_host cs (run demo_host [call_init 640 480 ["markerA"] ["Box"]
                                             "config.json" false] demo_page))
      !! 0 = Some o'
    /\ identity o' = identity o
    /\ (no_setFPS cs = true -> _fps o' = _fps o).
Proof.
  apply (identity_fields_never_change demo_host).
  vm_compute. reflexivity.
Defined.

(** X4.  [getEntities], [getEventTarget], [dispose], [disposeNFT],
    [disposeVideoStream] and the browser's animation frames and video
    frames assign no field of any orchestrator, whether they throw or not:
    in particular [dispose] resets neither [cameraView] nor [controllers]. *)
Theorem read_only_commands_assign_no_field host c W :
  is_read_only c = true -> heap (step host c W) = heap W.
Proof.
  intros Hc. apply heap_rel_unchanged.
  apply read_only_heap_rel; [apply unchanged_refl | apply unchanged_trans | done].
Qed.

Lemma read_only_commands_assign_no_field_witness :
  heap (step demo_host (call_dispose 0) (run demo_host demo_commands demo_page))
  = heap (run demo_host demo_commands demo_page)
  /\ heap (step demo_host animation_frame (run demo_host demo_commands demo_page))
     = heap (run demo_host demo_commands demo_page).
Proof.
  split.
  - apply (read_only_commands_assign_no_field demo_host (call_dispose 0)).
    reflexivity.
  - apply (read_only_commands_assign_no_field demo_host animation_frame).
    reflexivity.
Defined.

(** X5.  Orchestrators on one page do not write to each other.  For an
    orchestrator at [l]: [setFPS] on another handle, the config-ready
    listener of another orchestrator (run to its [await]), the resumption of
    a parked listener of another orchestrator, and the construction of a new
    orchestrator all leave it exactly as it was. *)
Theorem orchestrators_do_not_write_to_each_other host W l o :
  heap W !! l = Some o ->
  (forall this v, l <> this ->
     heap (step host (call_setFPS this v) W) !! l = Some o)
  /\ (forall cfg f, l <> l_this f ->
        heap (listener_call host cfg W f) !! l = Some o)
  /\ (forall k settled f, awaiting W !! k = Some f -> l <> l_this f ->
        heap (step host (settle_camera k settled) W) !! l = Some o)
  /\ (forall c, allocated host c W <> [] ->
        heap (step host c W) !! l = Some o).
Proof.
  intros Hl. split; [| split; [| split]].
  - intros this v Hne. cbn [step]. unfold exec, setFPS.
    destruct (stable_assign (unchanged_outside [this])
                (unchanged_outside_refl [this]) this
                (set__fps (1000 / v)%float)
                ltac:(intros o0; apply unchanged_outside_here;
                      by apply list_elem_of_singleton) W)
      as [_ Hrel].
    destruct (Hrel l o Hl) as (o' & Hl' & Ho'). rewrite Hl'. f_equal.
    apply Ho'. by rewrite list_elem_of_singleton.
  - intros cfg f Hne.
    destruct (listener_call_heap_rel host (unchanged_outside [l_this f])
                (unchanged_outside_refl _) (unchanged_outside_trans _) cfg W f)
      as [_ Hrel].
    { apply unchanged_outside_assignable. by apply list_elem_of_singleton. }
    destruct (Hrel l o Hl) as (o' & Hl' & Ho'). rewrite Hl'. f_equal.
    apply Ho'. by rewrite list_elem_of_singleton.
  - intros k settled f Hk Hne.
    destruct (settle_camera_heap_rel host (unchanged_outside [l_this f])
                (unchanged_outside_refl _) (unchanged_outside_trans _)
                k settled W)
      as [_ Hrel].
    { intros f' Hf'. rewrite Hk in Hf'. injection Hf' as <-.
      apply unchanged_outside_assignable. by apply list_elem_of_singleton. }
    destruct (Hrel l o Hl) as (o' & Hl' & Ho'). rewrite Hl'. f_equal.
    apply Ho'. by rewrite list_elem_of_singleton.
  - intros c Hc. destruct c; try done; cbn [step].
    + rewrite init_eq. unfold after_init. world_simpl. by apply lookup_app_l_Some.
    + rewrite initWithEntities_eq. unfold after_init. world_simpl.
      by apply lookup_app_l_Some.
Qed.

(** Two orchestrators on the demo page; the first one's listener has run to
    its end, the second one's is registered. *)
Lemma orchestrators_do_not_write_to_each_other_witness :
  let W := run demo_host two_orchestrators demo_page in
  let o := demo_orchestrator in
  heap W !! 0 = Some o
  /\ (forall this v, 0 <> this ->
        heap (step demo_host (call_setFPS this v) W) !! 0 = Some o)
  /\ (forall cfg f, 0 <> l_this f ->
        heap (listener_call demo_host cfg W f) !! 0 = Some o)
  /\ (forall k settled f, awaiting W !! k = Some f -> 0 <> l_this f ->
        heap (step demo_host (settle_camera k settled) W) !! 0 = Some o)
  /\ (forall c, allocated demo_host c W <> [] ->
        heap (step demo_host c W) !! 0 = Some o).
Proof.
  split; [vm_compute; reflexivity |].
  apply (orchestrators_do_not_write_to_each_other demo_host
           (run demo_host two_orchestrators demo_page) 0 demo_orchestrator).
  vm_compute. reflexivity.
Defined.

(** X6.  [init] pairs marker locators with names by index and never checks
    the lengths.  In the setting of C1, with any two lists: there is one
    session per marker locator (none for an empty list), in input order;
    the session at index [i] has the name [names[i]], which is [undefined]
    when [names] is shorter; names past the last locator are ignored. *)
Theorem init_pairs_locators_with_names_by_index
    host W w h markerUrls names url stats cfg :
  getConfigListeners W = [] -> awaiting W = [] ->
  overlay_slots host cfg stats (document W) = true ->
  let this := length (heap W) in
  let W3 :=
    run host [fire_getConfig cfg; settle_camera 0 None]
      (init host w h markerUrls names url stats W).2 in
  exists o ws,
    heap W3 !! this = Some o /\ controllers o = Some ws
    /\ length ws = length markerUrls
    /\ constructed (trace W3) = constructed (trace W) ++ ws
    /\ forall i,
         ws !! i
         = (fun markerUrl =>
              NFTWorker.mk markerUrl w h (uuidv4 host this) (names !! i))
             <$> markerUrls !! i.
Proof.
  intros Hf Ha Hslots this W3.
  destruct (init_startup host W w h markerUrls names url stats cfg Hf Ha Hslots)
    as (Hinit & HW2 & HW3 & _).
  subst W3. rewrite Hinit. cbn [snd]. rewrite !run_cons. cbn [run foldl].
  rewrite HW3, HW2. clear Hinit HW2 HW3.
  unfold started, parked, after_init. world_simpl.
  cbn [l_this l_names l_markerUrls l_stats].
  cbn [at_await set_cameraView set_controllers set_appData constructed_ARnft
       width height uuid controllers].
  eexists. eexists. split.
  { apply list_lookup_insert_eq. rewrite length_insert, length_app. cbn. lia. }
  split; [reflexivity |]. split; [apply length_sessions_from |]. split.
  - rewrite !constructed_app, constructed_init_calls, constructed_head_calls,
      constructed_startup_from. by rewrite !app_nil_r.
  - intros i. by rewrite sessions_from_lookup.
Qed.

(** Three locators and one name: the second and third session have no
    name. *)
Lemma init_pairs_locators_with_names_by_index_witness :
  let W3 :=
    run demo_host [fire_getConfig demo_config; settle_camera 0 None]
      (init demo_host 640 480 ["markerA"; "markerB"; "markerC"] ["Box"]
         "config.json" true demo_page).2 in
  exists o ws,
    heap W3 !! 0 = Some o /\ controllers o = Some ws
    /\ length ws = 3
    /\ constructed (trace W3) = [] ++ ws
    /\ forall i,
         ws !! i
         = (fun markerUrl => NFTWorker.mk markerUrl 640 480 "uuid-0" (["Box"] !! i))
             <$> ["markerA"; "markerB"; "markerC"] !! i.
Proof.
  apply (init_pairs_locators_with_names_by_index demo_host demo_page 640 480
           ["markerA"; "markerB"; "markerC"] ["Box"] "config.json" true
           demo_config);
    reflexivity.
Defined.

(** X7.  With overlays requested and one of the slots "stats1", "stats2"
    missing from the page, the listener stops at the [appendChild] on
    [null]: the configuration is stored, but no Camera View is constructed,
    no session list is set and the listener is not parked, so no session is
    ever created; [dispose()] still throws. *)
Theorem missing_overlay_slot_stops_the_listener
    host W w h markerUrls names url cfg :
  getConfigListeners W = [] ->
  overlay_slots host cfg true (document W) = false ->
  let this := length (heap W) in
  let f := mkListener this markerUrls names true in
  let W1 := (init host w h markerUrls names url true W).2 in
  let W2 := step host (fire_getConfig cfg) W1 in
  W2 = aborted host cfg f (constructed_ARnft host this w h url) W1
  /\ awaiting W2 = awaiting W
  /\ (exists o, heap W2 !! this = Some o /\ appData o = Some cfg
        /\ cameraView o = None /\ controllers o = None)
  /\ dispose this W2 = (Throw (undefined_read "cameraView"), W2).
Proof.
  intros Hf Hslots this f W1 W2.
  assert (Hl1 : heap W1 !! this = Some (constructed_ARnft host this w h url)).
  { subst W1. rewrite init_eq. unfold after_init. world_simpl.
    by apply list_lookup_middle. }
  assert (HW2 : W2 = aborted host cfg f (constructed_ARnft host this w h url) W1).
  { subst W2 W1. rewrite init_eq in *. cbn [snd] in *.
    rewrite (fire_getConfig_alone host _ f cfg).
    2: { unfold after_init. world_simpl. by rewrite Hf. }
    apply listener_call_aborted; [exact Hl1 | exact Hslots]. }
  assert (Hl2 : heap W2 !! this
                = Some (set_appData (Some cfg) (constructed_ARnft host this w h url))).
  { rewrite HW2. unfold aborted. world_simpl. cbn [l_this f].
    apply list_lookup_insert_eq. by eapply lookup_lt_Some. }
  split; [exact HW2 |]. split.
  { rewrite HW2. subst W1. rewrite init_eq. reflexivity. }
  split; [eexists; split; [exact Hl2 | done] |].
  by eapply dispose_without_cameraView.
Qed.

Lemma missing_overlay_slot_stops_the_listener_witness :
  let f := mkListener 0 ["markerA"] ["Box"] true in
  let W1 :=
    (init demo_host 640 480 ["markerA"] ["Box"] "config.json" true demo_page).2 in
  let W2 := step demo_host (fire_getConfig demo_config_plain) W1 in
  W2 = aborted demo_host demo_config_plain f
         (constructed_ARnft demo_host 0 640 480 "config.json") W1
  /\ awaiting W2 = []
  /\ (exists o, heap W2 !! 0 = Some o /\ appData o = Some demo_config_plain
        /\ cameraView o = None /\ controllers o = None)
  /\ dispose 0 W2 = (Throw (undefined_read "cameraView"), W2).
Proof.
  apply (missing_overlay_slot_stops_the_listener demo_host demo_page 640 480
           ["markerA"] ["Box"] "config.json" demo_config_plain);
    reflexivity.
Defined.

(** X8.  The loop has no stop condition.  On a running orchestrator (a
    Camera View, sessions [ws], one [update] pending per session) every
    animation frame calls [process] exactly once per session, in session
    order, with the frame the video shows at that moment, and leaves one
    [update] pending per session again: whatever the number of frames, the
    world differs from the one before by those calls only. *)
Theorem animation_frames_keep_the_loops_running host W this cam ws :
  running W this cam ws ->
  (forall frame,
     run host [video_plays frame; animation_frame] W
     = set_trace (trace W ++ ticks_from cam frame this ws 0)
         (set_videoFrame frame W))
  /\ forall n,
       run host (replicate n animation_frame) W
       = set_trace
           (trace W ++ mjoin (replicate n (ticks_from cam (videoFrame W) this ws 0)))
           W.
Proof.
  intros Hrun. split.
  - intros frame. rewrite !run_cons. cbn [run foldl].
    change (step host (video_plays frame) W) with (set_videoFrame frame W).
    by rewrite (animation_frame_running host _ this cam ws).
  - by apply animation_frames_running.
Qed.

Lemma animation_frames_keep_the_loops_running_witness :
  let W := run demo_host demo_commands demo_page in
  let cam := CameraViewRenderer.mk (Some "video") in
  let ws := [NFTWorker.mk "markerA" 640 480 "uuid-0" (Some "Box")] in
  (forall frame,
     run demo_host [video_plays frame; animation_frame] W
     = set_trace (trace W ++ ticks_from cam frame 0 ws 0) (set_videoFrame frame W))
  /\ forall n,
       run demo_host (replicate n animation_frame) W
       = set_trace
           (trace W ++ mjoin (replicate n (ticks_from cam (videoFrame W) 0 ws 0)))
           W.
Proof.
  apply (animation_frames_keep_the_loops_running demo_host
           (run demo_host demo_commands demo_page) 0
           (CameraViewRenderer.mk (Some "video"))
           [NFTWorker.mk "markerA" 640 480 "uuid-0" (Some "Box")]).
  split; [exists demo_orchestrator; split; [| split] |]; vm_compute; reflexivity.
Defined.

(** X9.  [dispose()] does not stop the loops.  On a running orchestrator,
    [dispose()] called any number of times makes its two calls each time
    and changes nothing else: the next animation frame still calls
    [process] on every session and requests the frame after. *)
Theorem dispose_does_not_stop_the_loops host W this cam ws n :
  running W this cam ws ->
  run host (disposals this n ++ [animation_frame]) W
  = set_trace
      (trace W
       ++ mjoin (replicate n [CameraViewRenderer_destroy cam; NFTWorker_stopNFT])
       ++ ticks_from cam (videoFrame W) this ws 0)
      W.
Proof.
  intros Hrun. rewrite run_app, (disposals_running host W this cam ws Hrun).
  rewrite run_cons. cbn [run foldl].
  rewrite (animation_frame_running host _ this cam ws) by done.
  world_simpl. rewrite <- app_assoc. by destruct W.
Qed.

Lemma dispose_does_not_stop_the_loops_witness :
  let W := run demo_host demo_commands demo_page in
  let cam := CameraViewRenderer.mk (Some "video") in
  let ws := [NFTWorker.mk "markerA" 640 480 "uuid-0" (Some "Box")] in
  run demo_host (disposals 0 2 ++ [animation_frame]) W
  = set_trace
      (trace W
       ++ mjoin (replicate 2 [CameraViewRenderer_destroy cam; NFTWorker_stopNFT])
       ++ ticks_from cam (videoFrame W) 0 ws 0)
      W.
Proof.
  apply (dispose_does_not_stop_the_loops demo_host
           (run demo_host demo_commands demo_page) 0
           (CameraViewRenderer.mk (Some "video"))
           [NFTWorker.mk "markerA" 640 480 "uuid-0" (Some "Box")] 2).
  split; [exists demo_orchestrator; split; [| split] |]; vm_compute; reflexivity.
Defined.

(** X10.  [dispose()] does not cancel an initialisation in flight.  In the
    setting of C1, [dispose()] called after the "getConfig" event and before
    the camera is ready completes normally (the Camera View exists from the
    event on); when the camera is then ready, the parked listener resumes
    all the same: the sessions are constructed and their loops started
    after the disposal. *)
Theorem dispose_does_not_cancel_initialisation
    host W w h markerUrls names url stats cfg :
  getConfigListeners W = [] -> awaiting W = [] ->
  overlay_slots host cfg stats (document W) = true ->
  let this := length (heap W) in
  let cam := camera_of (page_after_Container host cfg (document W)) in
  let ws := sessions_from w h (uuidv4 host this) names markerUrls 0 in
  let W2 :=
    step host (fire_getConfig cfg)
      (init host w h markerUrls names url stats W).2 in
  let W3 := run host [call_dispose this; settle_camera 0 None] W2 in
  dispose this W2
  = (Normal tt,
     set_trace (trace W2 ++ [CameraViewRenderer_destroy cam; NFTWorker_stopNFT]) W2)
  /\ trace W3
     = trace W2 ++ [CameraViewRenderer_destroy cam; NFTWorker_stopNFT]
       ++ startup_from cam cfg (videoFrame W) stats this ws 0
  /\ (exists o, heap W3 !! this = Some o /\ controllers o = Some ws)
  /\ animationFrames W3
     = animationFrames W ++ loops_from this (length markerUrls) 0.
Proof.
  intros Hf Ha Hslots this cam ws W2 W3.
  destruct (init_startup host W w h markerUrls names url stats cfg Hf Ha Hslots)
    as (Hinit & HW2 & _).
  subst this.
  set (this := length (heap W)) in *.
  set (f := mkListener this markerUrls names stats) in *.
  set (o := constructed_ARnft host this w h url) in *.
  assert (HW2' : W2 = parked host cfg f o (after_init host w h url f W)).
  { subst W2. by rewrite Hinit. }
  assert (Hl2 : heap W2 !! this = Some (at_await cfg cam o)).
  { rewrite HW2'. unfold parked, after_init. world_simpl. cbn [l_this f].
    apply list_lookup_insert_eq. rewrite length_app. cbn. lia. }
  assert (Hdispose : dispose this W2
    = (Normal tt,
       set_trace (trace W2 ++ [CameraViewRenderer_destroy cam; NFTWorker_stopNFT]) W2)).
  { destruct (dispose_cases this W2) as [[e He] | (o' & cam' & Hl' & Hcam' & Heq)].
    - exfalso. revert He. unfold dispose, disposeVideoStream, disposeNFT.
      js_unfold. rewrite Hl2. cbn [at_await set_cameraView cameraView].
      world_simpl. discriminate.
    - rewrite Hl2 in Hl'. injection Hl' as <-.
      cbn [at_await set_cameraView cameraView] in Hcam'. injection Hcam' as <-.
      exact Heq. }
  split; [exact Hdispose |].
  assert (HW3 : W3 = started f (at_await cfg cam o) cfg cam
                       (set_trace (trace W2 ++ [CameraViewRenderer_destroy cam;
                                                NFTWorker_stopNFT]) W2)).
  { subst W3. rewrite !run_cons. cbn [run foldl].
    change (step host (call_dispose this) W2) with (exec (dispose this) W2).
    unfold exec. rewrite Hdispose. cbn [snd].
    apply settle_camera_fulfilled_eq; try done.
    world_simpl. rewrite HW2'. unfold parked. world_simpl.
    unfold after_init. world_simpl. by rewrite Ha. }
  rewrite HW3. unfold started. world_simpl.
  cbn [l_this l_names l_markerUrls l_stats f].
  cbn [at_await set_cameraView set_controllers set_appData constructed_ARnft
       width height uuid controllers o].
  fold ws. split; [| split].
  - rewrite HW2'. unfold parked, after_init. world_simpl.
    by rewrite <- !app_assoc.
  - exists (set_controllers (Some ws) (at_await cfg cam o)). split; [| done].
    apply list_lookup_insert_eq. by eapply lookup_lt_Some.
  - rewrite HW2'. unfold parked, after_init. by world_simpl.
Qed.

Lemma dispose_does_not_cancel_initialisation_witness :
  let cam := CameraViewRenderer.mk (Some "video") in
  let ws := [NFTWorker.mk "markerA" 640 480 "uuid-0" (Some "Box")] in
  let W2 :=
    step demo_host (fire_getConfig demo_config)
      (init demo_host 640 480 ["markerA"] ["Box"] "config.json" true demo_page).2 in
  let W3 := run demo_host [call_dispose 0; settle_camera 0 None] W2 in
  dispose 0 W2
  = (Normal tt,
     set_trace (trace W2 ++ [CameraViewRenderer_destroy cam; NFTWorker_stopNFT]) W2)
  /\ trace W3
     = trace W2 ++ [CameraViewRenderer_destroy cam; NFTWorker_stopNFT]
       ++ startup_from cam demo_config 0 true 0 ws 0
  /\ (exists o, heap W3 !! 0 = Some o /\ controllers o = Some ws)
  /\ animationFrames W3 = [] ++ loops_from 0 1 0.
Proof.
  apply (dispose_does_not_cancel_initialisation demo_host demo_page 640 480
           ["markerA"] ["Box"] "config.json" true demo_config);
    reflexivity.
Defined.

(** X11.  The listener is never removed, and a second "getConfig" event
    runs it again.  In the setting of C1 with no [update] pending before,
    let the event fire and the camera become ready twice.

    With no animation frame between the second event and the camera's
    second answer ([W5]): [controllers] holds one session per marker
    locator again (the new ones), twice as many sessions have been
    constructed, and two [update]s are pending per session; each of any
    number of animation frames that follow calls [process] twice per
    session.

    With an animation frame between the second event and the camera's
    second answer ([W5']): that frame finds [controllers] empty and ends
    the loops of the first start-up (X12), so that after the camera's
    answer one [update] is pending per session, and each of any number of
    animation frames that follow calls [process] once per session. *)
Theorem second_event_doubles_the_loops
    host W w h markerUrls names url stats cfg :
  getConfigListeners W = [] -> awaiting W = [] -> animationFrames W = [] ->
  overlay_slots host cfg stats (document W) = true ->
  overlay_slots host cfg stats (page_after_Container host cfg (document W)) = true ->
  let this := length (heap W) in
  let cam :=
    camera_of (page_after_Container host cfg
                 (page_after_Container host cfg (document W))) in
  let ws := sessions_from w h (uuidv4 host this) names markerUrls 0 in
  let loops := loops_from this (length ws) 0 in
  let ticks := ticks_from cam (videoFrame W) this ws 0 in
  let W5 :=
    run host [fire_getConfig cfg; settle_camera 0 None;
              fire_getConfig cfg; settle_camera 0 None]
      (init host w h markerUrls names url stats W).2 in
  let W5' :=
    run host [fire_getConfig cfg; settle_camera 0 None;
              fire_getConfig cfg; animation_frame; settle_camera 0 None]
      (init host w h markerUrls names url stats W).2 in
  (exists o, heap W5 !! this = Some o /\ cameraView o = Some cam
     /\ controllers o = Some ws)
  /\ constructed (trace W5) = constructed (trace W) ++ ws ++ ws
  /\ animationFrames W5 = loops ++ loops
  /\ step host animation_frame W5 = set_trace (trace W5 ++ ticks ++ ticks) W5
  /\ (forall n,
        run host (replicate n animation_frame) W5
        = set_trace (trace W5 ++ mjoin (replicate n (ticks ++ ticks))) W5)
  /\ (exists o, heap W5' !! this = Some o /\ cameraView o = Some cam
        /\ controllers o = Some ws)
  /\ constructed (trace W5') = constructed (trace W) ++ ws ++ ws
  /\ animationFrames W5' = loops
  /\ (forall n,
        run host (replicate n animation_frame) W5'
        = set_trace (trace W5' ++ mjoin (replicate n ticks)) W5').
Proof.
  intros Hf Ha Hframes Hslots Hslots2 this cam ws loops ticks W5 W5'.
  destruct (init_startup host W w h markerUrls names url stats cfg Hf Ha Hslots)
    as (Hinit & HW2 & HW3 & _).
  subst this. set (this := length (heap W)) in *.
  set (f := mkListener this markerUrls names stats) in *.
  set (o := constructed_ARnft host this w h url) in *.
  set (cam1 := camera_of (page_after_Container host cfg (document W))) in *.
  set (W1 := after_init host w h url f W) in *.
  set (W2 := step host (fire_getConfig cfg) W1) in *.
  set (W3 := step host (settle_camera 0 None) W2) in *.
  set (o3 := set_controllers (Some ws) (at_await cfg cam1 o)).
  assert (Hlt : this < length (heap W1)).
  { unfold W1, after_init. world_simpl. rewrite length_app. cbn. lia. }
  assert (Hf3 : getConfigListeners W3 = [f]).
  { rewrite HW3, HW2. unfold started, parked, W1, after_init. world_simpl.
    by rewrite Hf. }
  assert (Ha3 : awaiting W3 = []) by (by rewrite HW3).
  assert (Hl3 : heap W3 !! l_this f = Some o3).
  { rewrite HW3. unfold started. world_simpl. cbn [l_this f].
    apply list_lookup_insert_eq. rewrite HW2. unfold parked. world_simpl.
    by rewrite length_insert. }
  assert (Hdoc3 : document W3 = page_after_Container host cfg (document W)).
  { rewrite HW3, HW2. unfold started, parked, W1, after_init. by world_simpl. }
  assert (Hs3 : overlay_slots host cfg (l_stats f) (document W3) = true).
  { by rewrite Hdoc3. }
  destruct (startup host W3 f o3 cfg Hf3 Ha3 Hl3 Hs3) as (HW4 & HW5 & _).
  rewrite Hdoc3 in HW5. fold cam in HW5.
  set (W4 := parked host cfg f o3 W3) in *.
  assert (HW5' : W5 = started f (at_await cfg cam o3) cfg cam W4).
  { subst W5. rewrite Hinit. cbn [snd]. rewrite !run_cons. cbn [run foldl].
    fold W1 W2 W3. by rewrite <- HW4. }
  assert (Hframes3 : animationFrames W3 = loops).
  { rewrite HW3, HW2. unfold started, parked, W1, after_init. world_simpl.
    cbn [l_this l_markerUrls f]. rewrite Hframes. cbn [app].
    unfold loops, ws. by rewrite length_sessions_from. }
  assert (Hframe3 : videoFrame W3 = videoFrame W).
  { rewrite HW3, HW2. by unfold started, parked, W1, after_init. }
  assert (Hc3 : constructed (trace W3) = constructed (trace W) ++ ws).
  { rewrite HW3, HW2. unfold started, parked, W1, after_init. world_simpl.
    cbn [l_this l_names l_markerUrls l_stats f].
    by rewrite !constructed_app, constructed_init_calls, !constructed_head_calls,
         !constructed_startup_from, !app_nil_r. }
  assert (Hl4 : heap W4 !! this = Some (at_await cfg cam o3)).
  { unfold W4, parked. world_simpl. cbn [l_this f]. rewrite Hdoc3. fold cam.
    apply list_lookup_insert_eq. by eapply lookup_lt_Some. }
  assert (Hl5 : heap W5 !! this = Some (set_controllers (Some ws) (at_await cfg cam o3))).
  { rewrite HW5'. unfold started. world_simpl. cbn [l_this f].
    apply list_lookup_insert_eq. by eapply lookup_lt_Some. }
  assert (Hframes5 : animationFrames W5 = loops ++ loops).
  { rewrite HW5'. unfold started, W4, parked. world_simpl.
    cbn [l_this l_markerUrls f]. rewrite Hframes3.
    unfold loops, ws. by rewrite length_sessions_from. }
  assert (Hframe5 : videoFrame W5 = videoFrame W).
  { rewrite HW5'. unfold started, W4, parked. world_simpl. exact Hframe3. }
  assert (Ho5 : exists o5, heap W5 !! this = Some o5 /\ cameraView o5 = Some cam
                  /\ controllers o5 = Some ws).
  { eexists. split; [exact Hl5 | done]. }
  (* the frame that comes in between *)
  set (stopped := map (fun _ : nat => uncaught (undefined_read "controllers[index]"))
                    (seq 0 (length ws))).
  set (W4f := set_animationFrames [] (set_trace (trace W4 ++ stopped) W4)).
  assert (HW4f : step host animation_frame W4 = W4f).
  { cbn [step].
    assert (Hframes4 : animationFrames W4 = map (mkUpdate this) (seq 0 (length ws))).
    { unfold W4, parked. world_simpl. exact Hframes3. }
    rewrite Hframes4.
    rewrite (frame_callbacks_throw this (at_await cfg cam o3) []
               (seq 0 (length ws)) (set_animationFrames [] W4) Hl4 eq_refl);
      [reflexivity |].
    apply Forall_forall. intros index _. cbn. lia. }
  assert (HW5f : W5' = started f (at_await cfg cam o3) cfg cam W4f).
  { subst W5'. rewrite Hinit. cbn [snd]. rewrite !run_cons. cbn [run foldl].
    fold W1 W2 W3. rewrite HW4, HW4f.
    apply (settle_camera_fulfilled_eq host W4f f); try done.
    unfold W4f, W4, parked. world_simpl. by rewrite Ha3. }
  assert (Hrun5' : running W5' this cam ws).
  { split.
    - exists (set_controllers (Some ws) (at_await cfg cam o3)).
      split; [| done]. rewrite HW5f. unfold started. world_simpl.
      cbn [l_this f]. apply list_lookup_insert_eq. by eapply lookup_lt_Some.
    - rewrite HW5f. unfold started, W4f. world_simpl.
      cbn [l_this l_markerUrls f app].
      unfold ws. by rewrite length_sessions_from. }
  assert (Hframe5' : videoFrame W5' = videoFrame W).
  { rewrite HW5f. unfold started, W4f, W4, parked. world_simpl. exact Hframe3. }
  split; [exact Ho5 |]. split; [| split; [exact Hframes5 |]]; [| split; [| split]].
  - rewrite HW5'. unfold started, W4, parked. world_simpl.
    cbn [l_this l_names l_markerUrls l_stats f].
    rewrite !constructed_app, Hc3, !constructed_head_calls,
      !constructed_startup_from, !app_nil_r.
    by rewrite <- app_assoc.
  - unfold ticks. rewrite <- Hframe5.
    by apply animation_frame_running_twice.
  - unfold ticks. rewrite <- Hframe5.
    by apply animation_frames_running_twice.
  - split; [exact (proj1 Hrun5') |]. split; [| split; [exact (proj2 Hrun5') |]].
    + rewrite HW5f. unfold started, W4f, W4, parked. world_simpl.
      cbn [l_this l_names l_markerUrls l_stats f].
      rewrite !constructed_app, Hc3, !constructed_head_calls,
        !constructed_startup_from.
      unfold stopped. rewrite constructed_uncaught, !app_nil_r.
      by rewrite <- app_assoc.
    + unfold ticks. rewrite <- Hframe5'.
      by apply animation_frames_running.
Qed.

Lemma second_event_doubles_the_loops_witness :
  let cam := CameraViewRenderer.mk (Some "video") in
  let ws := [NFTWorker.mk "markerA" 640 480 "uuid-0" (Some "Box")] in
  let loops := loops_from 0 1 0 in
  let ticks := ticks_from cam 0 0 ws 0 in
  let W5 :=
    run demo_host [fire_getConfig demo_config; settle_camera 0 None;
                   fire_getConfig demo_config; settle_camera 0 None]
      (init demo_host 640 480 ["markerA"] ["Box"] "config.json" true demo_page).2 in
  let W5' :=
    run demo_host [fire_getConfig demo_config; settle_camera 0 None;
                   fire_getConfig demo_config; animation_frame;
                   settle_camera 0 None]
      (init demo_host 640 480 ["markerA"] ["Box"] "config.json" true demo_page).2 in
  (exists o, heap W5 !! 0 = Some o /\ cameraView o = Some cam
     /\ controllers o = Some ws)
  /\ constructed (trace W5) = [] ++ ws ++ ws
  /\ animationFrames W5 = loops ++ loops
  /\ step demo_host animation_frame W5 = set_trace (trace W5 ++ ticks ++ ticks) W5
  /\ (forall n,
        run demo_host (replicate n animation_frame) W5
        = set_trace (trace W5 ++ mjoin (replicate n (ticks ++ ticks))) W5)
  /\ (exists o, heap W5' !! 0 = Some o /\ cameraView o = Some cam
        /\ controllers o = Some ws)
  /\ constructed (trace W5') = [] ++ ws ++ ws
  /\ animationFrames W5' = loops
  /\ (forall n,
        run demo_host (replicate n animation_frame) W5'
        = set_trace (trace W5' ++ mjoin (replicate n ticks)) W5').
Proof.
  apply (second_event_doubles_the_loops demo_host demo_page 640 480
           ["markerA"] ["Box"] "config.json" true demo_config);
    reflexivity.
Defined.

(** X12.  An [update] whose index is past the end of [controllers] throws
    a TypeError before it requests the next frame, so its loop ends.  A
    "getConfig" event resets [controllers] to the empty list until the
    camera answers: an animation frame that comes in between ends every
    loop that was running on that orchestrator. *)
Theorem frame_while_camera_pending_ends_the_loops host W this o cs indices :
  heap W !! this = Some o -> controllers o = Some cs ->
  animationFrames W = map (mkUpdate this) indices ->
  Forall (fun index => length cs <= index) indices ->
  step host animation_frame W
  = set_animationFrames []
      (set_trace
         (trace W
          ++ map (fun _ => uncaught (undefined_read "controllers[index]")) indices)
         W).
Proof.
  intros Hl Hctl Hframes Hall. cbn [step]. rewrite Hframes.
  by rewrite (frame_callbacks_throw this o cs indices (set_animationFrames [] W)
               Hl Hctl Hall).
Qed.

Lemma frame_while_camera_pending_ends_the_loops_witness :
  let W := run demo_host demo_commands_refired demo_page in
  step demo_host animation_frame W
  = set_animationFrames []
      (set_trace
         (trace W
          ++ map (fun _ => uncaught (undefined_read "controllers[index]")) [0])
         W).
Proof.
  apply (frame_while_camera_pending_ends_the_loops demo_host
           (run demo_host demo_commands_refired demo_page) 0
           (at_await demo_config (CameraViewRenderer.mk (Some "video"))
              demo_orchestrator)
           [] [0]).
  - vm_compute. reflexivity.
  - reflexivity.
  - vm_compute. reflexivity.
  - repeat constructor.
Defined.

(** ** Several orchestrators on one page *)

Section Several.

Variable host : Host.

Lemma listener_call_parked W f o cfg :
  heap W !! l_this f = Some o ->
  overlay_slots host cfg (l_stats f) (document W) = true ->
  listener_call host cfg W f = parked host cfg f o W.
Proof.
  intros Hl Hslots. unfold listener_call.
  rewrite (listener_head_eq host _ _ _ _ Hl Hslots).
  unfold parked. by destruct W.
Qed.

Lemma listener_run_parked W f o cfg :
  heap W !! l_this f = Some o ->
  overlay_slots host cfg (l_stats f) (document W) = true ->
  listener_run host cfg W f = (parked host cfg f o W, []).
Proof.
  intros Hl Hslots. unfold listener_run.
  rewrite (listener_head_eq host _ _ _ _ Hl Hslots).
  unfold parked. by destruct W.
Qed.

Lemma settle_camera_resumed W k f o cfg cam :
  awaiting W !! k = Some f -> heap W !! l_this f = Some o ->
  controllers o = Some [] -> appData o = Some cfg -> cameraView o = Some cam ->
  step host (settle_camera k None) W = resumed k f o cfg cam W.
Proof.
  intros Hk Hl Hctl Happ Hcam. cbn [step]. rewrite Hk.
  unfold dropped, listener_tail, forEach.
  by erewrite (forEach_from_eq _ _ _ cfg cam _ _ 0 o []).
Qed.

(** Two parked listeners of different orchestrators resume one after the
    other, whichever comes first. *)
Lemma settle_camera_twice W k1 k2 fa fb oa ob cfg cama camb :
  awaiting W !! k1 = Some fa -> delete k1 (awaiting W) !! k2 = Some fb ->
  l_this fa <> l_this fb ->
  heap W !! l_this fa = Some (at_await cfg cama oa) ->
  heap W !! l_this fb = Some (at_await cfg camb ob) ->
  run host [settle_camera k1 None; settle_camera k2 None] W
  = resumed k2 fb (at_await cfg camb ob) cfg camb
      (resumed k1 fa (at_await cfg cama oa) cfg cama W).
Proof.
  intros Hk1 Hk2 Hne Hla Hlb. rewrite !run_cons. cbn [run foldl].
  rewrite (settle_camera_resumed W k1 fa _ cfg cama Hk1 Hla) by done.
  apply settle_camera_resumed; try done.
  unfold resumed. world_simpl. by rewrite list_lookup_insert_ne.
Qed.

Lemma settle_camera_twice_sessions W k1 k2 fa fb oa ob cfg cama camb :
  awaiting W !! k1 = Some fa -> delete k1 (awaiting W) !! k2 = Some fb ->
  l_this fa <> l_this fb ->
  heap W !! l_this fa = Some (at_await cfg cama oa) ->
  heap W !! l_this fb = Some (at_await cfg camb ob) ->
  let wsa := sessions_from (width oa) (height oa) (uuid oa) (l_names fa)
               (l_markerUrls fa) 0 in
  let wsb := sessions_from (width ob) (height ob) (uuid ob) (l_names fb)
               (l_markerUrls fb) 0 in
  let W' := run host [settle_camera k1 None; settle_camera k2 None] W in
  (exists o, heap W' !! l_this fa = Some o /\ controllers o = Some wsa)
  /\ (exists o, heap W' !! l_this fb = Some o /\ controllers o = Some wsb)
  /\ constructed (trace W') = constructed (trace W) ++ wsa ++ wsb
  /\ awaiting W' = delete k2 (delete k1 (awaiting W)).
Proof.
  intros Hk1 Hk2 Hne Hla Hlb wsa wsb W'. subst W'.
  rewrite (settle_camera_twice W k1 k2 fa fb oa ob cfg cama camb) by done.
  unfold resumed. world_simpl.
  cbn [at_await set_cameraView set_controllers set_appData width height uuid].
  fold wsa wsb.
  pose proof (lookup_lt_Some _ _ _ Hla) as Hlta.
  pose proof (lookup_lt_Some _ _ _ Hlb) as Hltb.
  split; [| split; [| split]].
  - eexists. split.
    + rewrite list_lookup_insert_ne by done. by apply list_lookup_insert_eq.
    + reflexivity.
  - eexists. split.
    + apply list_lookup_insert_eq. by rewrite length_insert.
    + reflexivity.
  - rewrite !constructed_app, !constructed_startup_from. by rewrite <- app_assoc.
  - reflexivity.
Qed.

End Several.

(** X13.  One "getConfig" event serves every orchestrator on the page.
    Two orchestrators are started with [init] on a page where nobody
    listened; the event parks both listeners, in registration order.  The
    cameras may answer in either order: the second one's first ([W3]) or
    the first one's first ([W3']).  Either way each orchestrator ends up
    with its own sessions, built from its own locators, names, width,
    height and identity, and nothing stays parked; only the order in which
    the sessions are constructed follows the cameras. *)
Theorem one_event_starts_every_orchestrator
    host W w1 h1 markerUrls1 names1 url1 stats1
    w2 h2 markerUrls2 names2 url2 stats2 cfg :
  getConfigListeners W = [] -> awaiting W = [] ->
  overlay_slots host cfg stats1 (document W) = true ->
  overlay_slots host cfg stats2 (page_after_Container host cfg (document W)) = true ->
  let first := length (heap W) in
  let second := S first in
  let ws1 := sessions_from w1 h1 (uuidv4 host first) names1 markerUrls1 0 in
  let ws2 := sessions_from w2 h2 (uuidv4 host second) names2 markerUrls2 0 in
  let W1 :=
    run host [call_init w1 h1 markerUrls1 names1 url1 stats1;
              call_init w2 h2 markerUrls2 names2 url2 stats2] W in
  let W2 := step host (fire_getConfig cfg) W1 in
  let W3 := run host [settle_camera 1 None; settle_camera 0 None] W2 in
  let W3' := run host [settle_camera 0 None; settle_camera 0 None] W2 in
  awaiting W2
  = [mkListener first markerUrls1 names1 stats1;
     mkListener second markerUrls2 names2 stats2]
  /\ (exists o, heap W3 !! first = Some o /\ controllers o = Some ws1)
  /\ (exists o, heap W3 !! second = Some o /\ controllers o = Some ws2)
  /\ constructed (trace W3) = constructed (trace W) ++ ws2 ++ ws1
  /\ awaiting W3 = []
  /\ (exists o, heap W3' !! first = Some o /\ controllers o = Some ws1)
  /\ (exists o, heap W3' !! second = Some o /\ controllers o = Some ws2)
  /\ constructed (trace W3') = constructed (trace W) ++ ws1 ++ ws2
  /\ awaiting W3' = [].
Proof.
  intros Hf Ha Hslots1 Hslots2 first second ws1 ws2 W1 W2 W3 W3'.
  set (f1 := mkListener first markerUrls1 names1 stats1).
  set (f2 := mkListener second markerUrls2 names2 stats2).
  set (o1 := constructed_ARnft host first w1 h1 url1).
  set (o2 := constructed_ARnft host second w2 h2 url2).
  set (doc1 := page_after_Container host cfg (document W)) in *.
  set (doc2 := page_after_Container host cfg doc1).
  assert (HW1 : W1 = after_init host w2 h2 url2 f2 (after_init host w1 h1 url1 f1 W)).
  { subst W1. rewrite !run_cons. cbn [run foldl step]. rewrite !init_eq. cbn [snd].
    unfold f2, second, first. f_equal. f_equal.
    unfold after_init. world_simpl. rewrite length_app. cbn. lia. }
  assert (Hlen : length (heap W1) = S (S first)).
  { rewrite HW1. unfold after_init. world_simpl. rewrite !length_app. cbn.
    subst first. lia. }
  assert (Hl1 : heap W1 !! first = Some o1).
  { rewrite HW1. unfold after_init. world_simpl.
    apply lookup_app_l_Some. by apply list_lookup_middle. }
  assert (Hl2 : heap W1 !! second = Some o2).
  { rewrite HW1. unfold after_init. world_simpl.
    rewrite length_app. cbn [length]. rewrite Nat.add_1_r.
    apply list_lookup_middle. rewrite length_app. cbn. subst second first. lia. }
  set (Wa := parked host cfg f1 o1 W1).
  assert (HWa : listener_run host cfg W1 f1 = (Wa, [])).
  { apply listener_run_parked; [exact Hl1 |].
    rewrite HW1. unfold after_init. by world_simpl. }
  assert (Hl2a : heap Wa !! l_this f2 = Some o2).
  { unfold Wa, parked. world_simpl. cbn [l_this f1 f2].
    rewrite list_lookup_insert_ne by (subst second; lia). exact Hl2. }
  assert (HW2 : W2 = parked host cfg f2 o2 Wa).
  { subst W2. cbn [step].
    assert (Hfs : getConfigListeners W1 = [f1; f2]).
    { rewrite HW1. unfold after_init. world_simpl. by rewrite Hf. }
    rewrite Hfs. cbn [dispatch_getConfig]. rewrite HWa. cbn [fst snd].
    rewrite (listener_run_parked host Wa f2 o2 cfg Hl2a); [reflexivity |].
    unfold Wa, parked. world_simpl. rewrite HW1. unfold after_init. by world_simpl. }
  assert (Haw2 : awaiting W2 = [f1; f2]).
  { rewrite HW2. unfold parked, Wa, parked. world_simpl.
    rewrite HW1. unfold after_init. world_simpl. by rewrite Ha. }
  set (cam1 := camera_of doc1). set (cam2 := camera_of doc2).
  assert (Hh2 : heap W2 = <[second := at_await cfg cam2 o2]>
                            (<[first := at_await cfg cam1 o1]> (heap W1))).
  { rewrite HW2. unfold parked, Wa, parked. world_simpl. cbn [l_this f1 f2].
    unfold cam1, cam2, doc2, doc1. rewrite HW1. unfold after_init. by world_simpl. }
  assert (Hh21 : heap W2 !! l_this f1 = Some (at_await cfg cam1 o1)).
  { rewrite Hh2. cbn [l_this f1].
    rewrite list_lookup_insert_ne by (subst second; lia).
    apply list_lookup_insert_eq. rewrite Hlen. lia. }
  assert (Hh22 : heap W2 !! l_this f2 = Some (at_await cfg cam2 o2)).
  { rewrite Hh2. cbn [l_this f2]. apply list_lookup_insert_eq.
    rewrite length_insert, Hlen. subst second. lia. }
  assert (Hne : l_this f1 <> l_this f2).
  { cbn [l_this f1 f2]. subst second. lia. }
  assert (Ht2 : constructed (trace W2) = constructed (trace W)).
  { rewrite HW2. unfold parked, Wa, parked. world_simpl.
    rewrite HW1. unfold after_init. world_simpl.
    by rewrite !constructed_app, !constructed_init_calls, !constructed_head_calls,
         !app_nil_r. }
  destruct (settle_camera_twice_sessions host W2 1 0 f2 f1 o2 o1 cfg cam2 cam1)
    as (Hb2 & Hb1 & Hbt & Hba);
    [by rewrite Haw2 | by rewrite Haw2 | by apply not_eq_sym | exact Hh22 | exact Hh21 |].
  destruct (settle_camera_twice_sessions host W2 0 0 f1 f2 o1 o2 cfg cam1 cam2)
    as (Hc1 & Hc2 & Hct & Hca);
    [by rewrite Haw2 | by rewrite Haw2 | exact Hne | exact Hh21 | exact Hh22 |].
  rewrite Ht2 in Hbt, Hct. rewrite Haw2 in Hba, Hca.
  cbn [l_this f1 f2 l_names l_markerUrls o1 o2 constructed_ARnft width height uuid]
    in Hb1, Hb2, Hbt, Hc1, Hc2, Hct.
  repeat split; assumption.
Qed.

Lemma one_event_starts_every_orchestrator_witness :
  let ws1 := [NFTWorker.mk "markerA" 640 480 "uuid-0" (Some "Box")] in
  let ws2 := [NFTWorker.mk "markerB" 320 240 "uuid-1" (Some "Pinball");
              NFTWorker.mk "markerC" 320 240 "uuid-1" None] in
  let W1 :=
    run demo_host
      [call_init 640 480 ["markerA"] ["Box"] "config.json" true;
       call_init 320 240 ["markerB"; "markerC"] ["Pinball"] "other.json" false]
      demo_page in
  let W2 := step demo_host (fire_getConfig demo_config) W1 in
  let W3 := run demo_host [settle_camera 1 None; settle_camera 0 None] W2 in
  let W3' := run demo_host [settle_camera 0 None; settle_camera 0 None] W2 in
  awaiting W2
  = [mkListener 0 ["markerA"] ["Box"] true;
     mkListener 1 ["markerB"; "markerC"] ["Pinball"] false]
  /\ (exists o, heap W3 !! 0 = Some o /\ controllers o = Some ws1)
  /\ (exists o, heap W3 !! 1 = Some o /\ controllers o = Some ws2)
  /\ constructed (trace W3) = [] ++ ws2 ++ ws1
  /\ awaiting W3 = []
  /\ (exists o, heap W3' !! 0 = Some o /\ controllers o = Some ws1)
  /\ (exists o, heap W3' !! 1 = Some o /\ controllers o = Some ws2)
  /\ constructed (trace W3') = [] ++ ws1 ++ ws2
  /\ awaiting W3' = [].
Proof.
  apply (one_event_starts_every_orchestrator demo_host demo_page
           640 480 ["markerA"] ["Box"] "config.json" true
           320 240 ["markerB"; "markerC"] ["Pinball"] "other.json" false
           demo_config);
    reflexivity.
Defined.

(** A listener that throws does not stop the dispatch: the next listener
    still runs to its [await], and the rejection of the first one is
    reported after it. *)
Example rejection_is_reported_after_the_dispatch :
  let W1 :=
    run demo_host
      [call_init 640 480 ["markerA"] ["Box"] "config.json" true;
       call_init 320 240 ["markerB"] ["Pinball"] "other.json" false]
      demo_page in
  let W2 := step demo_host (fire_getConfig demo_config_plain) W1 in
  awaiting W2 = [mkListener 1 ["markerB"] ["Pinball"] false]
  /\ trace W2
     = trace W1
       ++ container_calls demo_config_plain ++ overlay_calls_until_missing false
       ++ head_calls demo_config_plain false (CameraViewRenderer.mk (Some "video"))
       ++ [unhandledrejection null_appendChild].
Proof. cbv zeta. split; vm_compute; reflexivity. Qed.

(** ** What the listener keeps *)

Lemma keeps_consistent_refl l o : keeps_consistent l o o.
Proof. by intros H. Qed.

Lemma keeps_consistent_trans l o1 o2 o3 :
  keeps_consistent l o1 o2 -> keeps_consistent l o2 o3 -> keeps_consistent l o1 o3.
Proof. unfold keeps_consistent. auto. Qed.

Lemma consistent_constructed host this w h url :
  consistent (constructed_ARnft host this w h url).
Proof.
  split; cbn; [split |]; intros [x Hx]; discriminate Hx.
Qed.

Lemma consistent_at_await cfg cam o : consistent (at_await cfg cam o).
Proof. split; cbn; [split |]; intros _; eauto. Qed.

Lemma consistent_set_appData cfg o :
  consistent o -> consistent (set_appData (Some cfg) o).
Proof. intros [Hctl Hcam]. split; cbn; [done | eauto]. Qed.

Lemma consistent_set_controllers cs cs' o :
  controllers o = Some cs -> consistent o ->
  consistent (set_controllers (Some cs') o).
Proof.
  intros Hcs [Hctl Hcam]. split; cbn; [| done]. split; [| eauto].
  intros _. apply Hctl. rewrite Hcs. eauto.
Qed.

Lemma consistent_set__fps v o : consistent o -> consistent (set__fps v o).
Proof. by intros [Hctl Hcam]. Qed.

Lemma stable_after_push P this stats index :
  (forall l o, P l o o) ->
  (forall l o1 o2 o3, P l o1 o2 -> P l o2 o3 -> P l o1 o3) ->
  stable P (after_push this stats index).
Proof.
  intros P_refl P_trans. unfold after_push.
  repeat first
    [ apply stable_update; assumption
    | apply stable_bind; [ assumption | | intros ? ];
        [ first [ apply stable_this_controllers_at; assumption
                | apply stable_getImage; assumption
                | apply stable_this_appData; assumption
                | apply stable_emit; assumption ] | ] ].
Qed.

Lemma forEach_callback_keeps_consistent this names stats markerUrl index W :
  heap_rel keeps_consistent (heap W)
    (heap (forEach_callback this names stats markerUrl index W).2).
Proof.
  change (forEach_callback this names stats markerUrl index)
    with (cs <- this_controllers this ;;
          o <- this_ this ;;
          emit (NFTWorker_new
                  (NFTWorker.mk markerUrl (width o) (height o) (uuid o)
                     (names !! index))) ;;
          assign this
            (set_controllers
               (Some (cs ++ [NFTWorker.mk markerUrl (width o) (height o) (uuid o)
                               (names !! index)]))) ;;
          after_push this stats index)%js.
  unfold this_controllers. js_unfold.
  destruct (heap W !! this) as [o |] eqn:Hl;
    [| apply heap_rel_refl; apply keeps_consistent_refl].
  destruct (controllers o) as [cs |] eqn:Hcs;
    [| apply heap_rel_refl; apply keeps_consistent_refl].
  world_simpl. rewrite Hl. world_simpl. rewrite Hl.
  set (W1 := set_heap _ _).
  pose proof (stable_after_push unchanged this stats index
                unchanged_refl unchanged_trans W1) as Hrest.
  apply heap_rel_unchanged in Hrest.
  destruct (after_push this stats index W1) as [[[] | e] W2]; cbn [snd] in *;
    rewrite Hrest; subst W1; world_simpl;
    (apply heap_rel_insert;
       [apply keeps_consistent_refl | exact Hl
       | intros Ho; by eapply consistent_set_controllers]).
Qed.

Lemma forEach_from_keeps_consistent this names stats markerUrls :
  forall index W,
    heap_rel keeps_consistent (heap W)
      (heap (forEach_from (forEach_callback this names stats) markerUrls index W).2).
Proof.
  induction markerUrls as [| markerUrl rest IH]; intros index W; cbn [forEach_from].
  - apply heap_rel_refl, keeps_consistent_refl.
  - unfold bind.
    pose proof (forEach_callback_keeps_consistent this names stats markerUrl
                  index W) as Hfirst.
    destruct (forEach_callback this names stats markerUrl index W)
      as [[[] | e] W1]; cbn [snd] in *; [| done].
    eapply heap_rel_trans; [apply keeps_consistent_trans | exact Hfirst | apply IH].
Qed.

Section Consistency.

Variable host : Host.

Lemma listener_head_no_this W f cfg :
  heap W !! l_this f = None ->
  listener_head host f cfg W = (Throw (undefined_read "this"), W).
Proof. intros Hl. unfold listener_head. js_unfold. by rewrite Hl. Qed.

Lemma listener_call_keeps_consistent cfg W f :
  heap_rel keeps_consistent (heap W) (heap (listener_call host cfg W f)).
Proof.
  destruct (heap W !! l_this f) as [o |] eqn:Hl.
  - destruct (overlay_slots host cfg (l_stats f) (document W)) eqn:Hslots.
    + rewrite (listener_call_parked host W f o cfg Hl Hslots).
      unfold parked. world_simpl.
      apply heap_rel_insert; [apply keeps_consistent_refl | done |].
      intros _. apply consistent_at_await.
    + rewrite (listener_call_aborted host W f cfg o Hl Hslots).
      unfold aborted. world_simpl.
      apply heap_rel_insert; [apply keeps_consistent_refl | done |].
      exact (consistent_set_appData cfg o).
  - unfold listener_call. rewrite (listener_head_no_this W f cfg Hl).
    apply heap_rel_refl, keeps_consistent_refl.
Qed.

Lemma step_keeps_consistent c W :
  heap_rel keeps_consistent (heap W ++ allocated host c W) (heap (step host c W)).
Proof.
  assert (Hrefl := keeps_consistent_refl).
  assert (Htrans := keeps_consistent_trans).
  destruct c; cbn [allocated]; rewrite ?app_nil_r;
    try (apply read_only_heap_rel; done).
  - cbn [step]. rewrite init_eq. by apply heap_rel_refl.
  - cbn [step]. rewrite initWithEntities_eq. by apply heap_rel_refl.
  - cbn [step]. apply stable_assign; try done.
    intros o. exact (consistent_set__fps _ o).
  - cbn [step]. rewrite report_rejections_heap.
    generalize (getConfigListeners W) as fs. intros fs. revert W.
    induction fs as [| f fs IH]; intros W; cbn [dispatch_getConfig fst].
    + by apply heap_rel_refl.
    + apply (heap_rel_trans _ Htrans _ (heap (listener_run host config W f).1));
        [| apply IH].
      rewrite listener_run_heap. apply listener_call_keeps_consistent.
  - cbn [step]. destruct (awaiting W !! k) as [f |]; [| by apply heap_rel_refl].
    unfold dropped. destruct settled as [error |]; cbn [listener_tail].
    + unfold exec. js_unfold. world_simpl. by apply heap_rel_refl.
    + unfold forEach.
      pose proof (forEach_from_keeps_consistent (l_this f) (l_names f) (l_stats f)
                    (l_markerUrls f) 0 (set_awaiting (delete k (awaiting W)) W))
        as Htail.
      by destruct (forEach_from _ _ _ _) as [[[] | e] W'].
Qed.

Lemma run_keeps_consistent cs :
  forall W,
    Forall consistent (heap W) -> Forall consistent (heap (run host cs W)).
Proof.
  induction cs as [| c cs IH]; intros W HW; [done |].
  rewrite run_cons. apply IH.
  destruct (step_keeps_consistent c W) as [Hlen Hstep].
  apply Forall_lookup. intros l o' Hl'.
  assert (Hlt : l < length (heap W ++ allocated host c W)).
  { rewrite <- Hlen. by eapply lookup_lt_Some. }
  apply lookup_lt_is_Some in Hlt as [o Hl].
  destruct (Hstep l o Hl) as (o'' & Hl'' & Hkeeps).
  rewrite Hl' in Hl''. injection Hl'' as <-. apply Hkeeps.
  apply lookup_app_Some in Hl as [Hold | [_ Hnew]].
  - by eapply (proj1 (Forall_lookup _ _) HW).
  - destruct c; cbn [allocated] in Hnew; try done;
      apply list_lookup_singleton_Some in Hnew as [_ <-];
      apply consistent_constructed.
Qed.

End Consistency.

(** X14.  On every page reached from a fresh one, an orchestrator has a
    session list exactly when it has a Camera View, and then it has a
    configuration.  So [dispose()] completes normally exactly on the
    orchestrators whose [controllers] is assigned, and a pending [update]
    can fail for one reason only: no session at its index. *)
Theorem sessions_and_camera_come_together host doc cs l o :
  let W := run host cs (page doc) in
  heap W !! l = Some o ->
  consistent o
  /\ ((exists W', dispose l W = (Normal tt, W')) <-> is_Some (controllers o))
  /\ (forall index ws w,
        controllers o = Some ws -> ws !! index = Some w ->
        exists cam,
          cameraView o = Some cam
          /\ update l index W
             = (Normal tt,
                set_animationFrames (animationFrames W ++ [mkUpdate l index])
                  (set_trace (trace W ++ tick cam (videoFrame W) l index w) W))).
Proof.
  intros W Hl.
  assert (Ho : consistent o).
  { eapply (proj1 (Forall_lookup _ _)); [| exact Hl].
    by apply run_keeps_consistent. }
  split; [exact Ho |]. destruct Ho as [Hctl Hcam]. split.
  - split.
    + intros [W' HW']. apply Hctl.
      destruct (dispose_cases l W) as [[e He] | (o' & cam & Hl' & Hcam' & _)].
      * rewrite He in HW'. discriminate HW'.
      * rewrite Hl in Hl'. injection Hl' as <-. rewrite Hcam'. eauto.
    + intros Hsome. apply Hctl in Hsome as [cam Hcam'].
      destruct (dispose_cases l W) as [[e He] | (o' & cam' & Hl' & Hcam'' & Heq)].
      * exfalso. revert He. unfold dispose, disposeVideoStream, disposeNFT.
        js_unfold. rewrite Hl, Hcam'. world_simpl. discriminate.
      * eauto.
  - intros index ws w Hws Hw.
    destruct (proj1 Hctl) as [cam Hcam']; [rewrite Hws; eauto |].
    exists cam. split; [done |]. by eapply update_eq.
Qed.

Lemma sessions_and_camera_come_together_witness :
  let W := run demo_host demo_commands_refired (page ["video"]) in
  let o := at_await demo_config (CameraViewRenderer.mk (Some "video"))
             demo_orchestrator in
  consistent o
  /\ ((exists W', dispose 0 W = (Normal tt, W')) <-> is_Some (controllers o))
  /\ (forall index ws w,
        controllers o = Some ws -> ws !! index = Some w ->
        exists cam,
          cameraView o = Some cam
          /\ update 0 index W
             = (Normal tt,
                set_animationFrames (animationFrames W ++ [mkUpdate 0 index])
                  (set_trace (trace W ++ tick cam (videoFrame W) 0 index w) W))).
Proof.
  apply (sessions_and_camera_come_together demo_host ["video"]
           demo_commands_refired 0).
  vm_compute. reflexivity.
Defined.

(** X15.  A rejected camera can be retried.  In the setting of C1, after
    the camera rejected, the orchestrator is left with its Camera View and
    an empty session list, and its listener is still registered: a further
    "getConfig" event runs the initialisation again, and with the camera
    ready this time the sessions are constructed as in C1. *)
Theorem rejected_camera_can_be_retried
    host W w h markerUrls names url stats cfg error :
  getConfigListeners W = [] -> awaiting W = [] ->
  overlay_slots host cfg stats (document W) = true ->
  overlay_slots host cfg stats (page_after_Container host cfg (document W)) = true ->
  let this := length (heap W) in
  let ws := sessions_from w h (uuidv4 host this) names markerUrls 0 in
  let W3 :=
    run host [fire_getConfig cfg; settle_camera 0 (Some error)]
      (init host w h markerUrls names url stats W).2 in
  let W5 := run host [fire_getConfig cfg; settle_camera 0 None] W3 in
  (exists o, heap W3 !! this = Some o /\ is_Some (cameraView o)
     /\ controllers o = Some [])
  /\ getConfigListeners W3 = [mkListener this markerUrls names stats]
  /\ (exists o, heap W5 !! this = Some o /\ controllers o = Some ws)
  /\ constructed (trace W5) = constructed (trace W) ++ ws
  /\ animationFrames W5 = animationFrames W ++ loops_from this (length ws) 0.
Proof.
  intros Hf Ha Hslots Hslots2 this ws W3 W5.
  destruct (init_startup host W w h markerUrls names url stats cfg Hf Ha Hslots)
    as (Hinit & HW2 & _ & Hrejected).
  subst this. set (this := length (heap W)) in *.
  set (f := mkListener this markerUrls names stats) in *.
  set (o := constructed_ARnft host this w h url) in *.
  set (cam1 := camera_of (page_after_Container host cfg (document W))) in *.
  set (W1 := after_init host w h url f W) in *.
  set (W2 := step host (fire_getConfig cfg) W1) in *.
  assert (HW3 : W3 = set_trace (trace W2 ++ [console_error error;
                                             unhandledrejection JsFalse])
                       (set_awaiting [] W2)).
  { subst W3. rewrite Hinit. cbn [snd]. rewrite !run_cons. cbn [run foldl].
    fold W1 W2. apply Hrejected. }
  assert (Hlt : this < length (heap W1)).
  { unfold W1, after_init. world_simpl. rewrite length_app. cbn. lia. }
  assert (Hf3 : getConfigListeners W3 = [f]).
  { rewrite HW3, HW2. unfold parked, W1, after_init. world_simpl. by rewrite Hf. }
  assert (Ha3 : awaiting W3 = []) by (by rewrite HW3).
  assert (Hl3 : heap W3 !! l_this f = Some (at_await cfg cam1 o)).
  { rewrite HW3, HW2. unfold parked. world_simpl. cbn [l_this f].
    by apply list_lookup_insert_eq. }
  assert (Hdoc3 : document W3 = page_after_Container host cfg (document W)).
  { rewrite HW3, HW2. unfold parked, W1, after_init. by world_simpl. }
  assert (Hs3 : overlay_slots host cfg (l_stats f) (document W3) = true).
  { by rewrite Hdoc3. }
  destruct (startup host W3 f _ cfg Hf3 Ha3 Hl3 Hs3) as (HW4 & HW5 & _).
  set (cam2 := camera_of (page_after_Container host cfg (document W3))) in *.
  assert (HW5' : W5 = started f (at_await cfg cam2 (at_await cfg cam1 o)) cfg cam2
                        (parked host cfg f (at_await cfg cam1 o) W3)).
  { subst W5. rewrite !run_cons. cbn [run foldl]. by rewrite <- HW4. }
  split; [eexists; split; [exact Hl3 | split; [by eexists | done]] |].
  split; [exact Hf3 |].
  rewrite HW5'. unfold started, parked. world_simpl.
  cbn [l_this l_names l_markerUrls l_stats f].
  cbn [at_await set_cameraView set_controllers set_appData constructed_ARnft
       width height uuid controllers o].
  fold ws. split; [| split].
  - exists (set_controllers (Some ws) (at_await cfg cam2 (at_await cfg cam1 o))).
    split; [| done]. apply list_lookup_insert_eq. rewrite length_insert.
    rewrite HW3, HW2. unfold parked. world_simpl. by rewrite length_insert.
  - rewrite HW3, HW2. unfold parked, W1, after_init. world_simpl.
    cbn [l_this l_names l_markerUrls l_stats f].
    rewrite !constructed_app, constructed_init_calls, !constructed_head_calls,
      !constructed_startup_from. cbn [constructed omap app].
    by rewrite !app_nil_r.
  - rewrite HW3, HW2. unfold parked, W1, after_init. world_simpl.
    unfold ws. by rewrite length_sessions_from.
Qed.

Lemma rejected_camera_can_be_retried_witness :
  let ws := [NFTWorker.mk "markerA" 640 480 "uuid-0" (Some "Box")] in
  let W3 :=
    run demo_host
      [fire_getConfig demo_config;
       settle_camera 0 (Some (HostError "NotAllowedError"))]
      (init demo_host 640 480 ["markerA"] ["Box"] "config.json" true demo_page).2 in
  let W5 := run demo_host [fire_getConfig demo_config; settle_camera 0 None] W3 in
  (exists o, heap W3 !! 0 = Some o /\ is_Some (cameraView o)
     /\ controllers o = Some [])
  /\ getConfigListeners W3 = [mkListener 0 ["markerA"] ["Box"] true]
  /\ (exists o, heap W5 !! 0 = Some o /\ controllers o = Some ws)
  /\ constructed (trace W5) = [] ++ ws
  /\ animationFrames W5 = [] ++ loops_from 0 (length ws) 0.
Proof.
  apply (rejected_camera_can_be_retried demo_host demo_page 640 480
           ["markerA"] ["Box"] "config.json" true demo_config
           (HostError "NotAllowedError"));
    reflexivity.
Defined.
